(** * Pipeline-level operations of the orchestration core

    A shallow embedding of [tfx/orchestration/experimental/core/pipeline_ops.py]
    and the properties its specification states about it.

    The Python module drives three shared objects: the MLMD store, the task
    queue and the wall clock.  They are threaded explicitly through a small
    state-and-exception monad [M].  Modules that [pipeline_ops.py] imports but
    whose code is not part of the sources at hand ([pipeline_state],
    [task_gen_utils], the two task generators, [time]) are interfaces: type
    classes whose methods the embedded functions call. *)

From Stdlib Require Import ZArith QArith Qminmax Qround Qpower Lqa Lia.
From Stdlib Require Import List String.
From stdpp Require Import base gmap strings list pretty.

Local Open Scope Z_scope.

(** ** Status codes and exceptions *)

(** Modelled from the spec: [status.py] is not among the sources; the error
    taxonomy is the closed set of section 7. *)
Inductive Code :=
| OK | UNKNOWN | NOT_FOUND | ALREADY_EXISTS
| FAILED_PRECONDITION | INTERNAL | DEADLINE_EXCEEDED.

#[global] Instance Code_eq_dec : EqDecision Code.
Proof. solve_decision. Defined.

(** What a Python call can raise: the structured [status_lib.StatusNotOkError]
    or any other [Exception], kept as its class name and its [str()]. *)
Inductive exn :=
| StatusNotOkError (code : Code) (message : string)
| PyException (cls : string) (str : string).

Definition AssertionError : exn := PyException "AssertionError" "".
Definition IndexError : exn :=
  PyException "IndexError" "list index out of range".

(** ** Protocol buffers *)

(** Modelled from the spec: [metadata_store_pb2.Execution.State], restricted to
    the states that section 3 lists for [last_known_state]. *)
Inductive State := NEW | RUNNING | COMPLETE | CANCELED | FAILED.

#[global] Instance State_eq_dec : EqDecision State.
Proof. solve_decision. Defined.

(** Modelled from the spec: [pipeline_pb2] is not among the sources.  Section 3
    names the two modes; an enum field can also carry any other number, which
    the code treats as an unknown mode. *)
Inductive ExecutionMode := SYNC | ASYNC | OtherMode (n : Z).

Record PipelineNode := mkPipelineNode {
  node_info_id : string;
  upstream_nodes : list string;
  downstream_nodes : list string
}.

Record Pipeline := mkPipeline {
  pipeline_info_id : string;
  execution_mode : ExecutionMode;
  nodes : list PipelineNode
}.

(** A value of the property bag of an execution; [PipelineIrValue] stands for
    the serialized IR that a pipeline execution carries. *)
Inductive Value :=
| IntValue (n : Z)
| StringValue (s : string)
| PipelineIrValue (ir : Pipeline).

(** An MLMD execution: a pipeline execution or a node execution. *)
Record Execution := mkExecution {
  exec_id : Z;
  last_known_state : State;
  custom_properties : gmap string Value
}.

(** [updated = copy.deepcopy(execution); updated.last_known_state = s] *)
Definition with_last_known_state (s : State) (e : Execution) : Execution :=
  {| exec_id := exec_id e;
     last_known_state := s;
     custom_properties := custom_properties e |}.

Record Context := mkContext {
  ctx_id : Z;
  ctx_type : string;
  ctx_name : string
}.

(** ** Identifiers and tasks ([task.py]) *)

(** Modelled from the spec: [task.py] is not among the sources.  A node is
    identified by (PipelineId, NodeId); the two task variants are those of
    section 6; a task id is derived from the kind of task and the node uid. *)
Record PipelineUid := mkPipelineUid { pipeline_id : string }.
Record NodeUid := mkNodeUid { pipeline_uid_of : PipelineUid; node_id : string }.

#[global] Instance PipelineUid_eq_dec : EqDecision PipelineUid.
Proof. solve_decision. Defined.
#[global] Instance NodeUid_eq_dec : EqDecision NodeUid.
Proof. solve_decision. Defined.

Definition PipelineUid_from_pipeline (pipeline : Pipeline) : PipelineUid :=
  {| pipeline_id := pipeline_info_id pipeline |}.

Definition NodeUid_from_pipeline_node
    (pipeline : Pipeline) (node : PipelineNode) : NodeUid :=
  {| pipeline_uid_of := PipelineUid_from_pipeline pipeline;
     node_id := node_info_id node |}.

Inductive Task :=
| ExecNodeTask (node_uid : NodeUid) (is_cancelled : bool)
| CancelNodeTask (node_uid : NodeUid).

Definition TaskId : Type := string * NodeUid.

Definition task_id (t : Task) : TaskId :=
  match t with
  | ExecNodeTask u _ => ("ExecNodeTask"%string, u)
  | CancelNodeTask u => ("CancelNodeTask"%string, u)
  end.

Definition exec_node_task_id_from_pipeline_node
    (pipeline : Pipeline) (node : PipelineNode) : TaskId :=
  ("ExecNodeTask"%string, NodeUid_from_pipeline_node pipeline node).

(** Modelled from the spec: [pipeline_state.get_all_pipeline_nodes]; the IR is
    the ordered list of its nodes. *)
Definition get_all_pipeline_nodes (pipeline : Pipeline) : list PipelineNode :=
  nodes pipeline.

(** Modelled from the spec: [execution_lib.is_execution_active] is not among
    the sources; section 3: "active" means NEW or RUNNING. *)
Definition is_execution_active (e : Execution) : bool :=
  match last_known_state e with
  | NEW | RUNNING => true
  | _ => false
  end.

(** ** The MLMD store, the task queue and the world *)

Record Store := mkStore {
  contexts : list Context;
  executions : gmap Z Execution;
  associations : list (Z * Z)   (* (context id, execution id) *)
}.

(** The two calls of the MLMD client that the module makes.
    [store.put_executions]: upsert by id. *)
Definition store_put_executions (es : list Execution) (st : Store) : Store :=
  {| contexts := contexts st;
     executions := foldl (fun m e => <[exec_id e := e]> m) (executions st) es;
     associations := associations st |}.

(** [store.get_executions_by_id]: the records found, in the order asked. *)
Definition store_get_executions_by_id (ids : list Z) (st : Store)
  : list Execution :=
  omap (fun i => executions st !! i) ids.

(** The object a task generator is once constructed.  Both are handed the
    bound method [task_queue.contains_task_id], that is the live queue. *)
Inductive Generator :=
| SyncPipelineTaskGenerator (pipeline : Pipeline)
| AsyncPipelineTaskGenerator
    (pipeline : Pipeline) (ignore_node_ids : gset string).

(** Calls that leave the module, in program order. *)
Inductive Event :=
| EvPutExecutions (es : list Execution)
| EvGetExecutionsById (ids : list Z) (found : list Execution)
| EvEnqueue (t : Task)
| EvGenerate (g : Generator)
| EvSleep (secs : Q).

(** The state that the module reads and writes.  Times are in seconds; a
    Python [float] is kept as the rational number it stands for, and the
    arithmetic on floats goes through [FloatArithmetic] below. *)
Record World := mkWorld {
  mlmd : Store;
  task_queue : list Task;
  clock : Q;
  lock_count : nat;          (* recursion level of [_PIPELINE_OPS_LOCK] *)
  trace : list Event
}.

Definition set_mlmd (st : Store) (w : World) : World :=
  {| mlmd := st; task_queue := task_queue w; clock := clock w;
     lock_count := lock_count w; trace := trace w |}.
Definition set_task_queue (q : list Task) (w : World) : World :=
  {| mlmd := mlmd w; task_queue := q; clock := clock w;
     lock_count := lock_count w; trace := trace w |}.
Definition set_clock (t : Q) (w : World) : World :=
  {| mlmd := mlmd w; task_queue := task_queue w; clock := t;
     lock_count := lock_count w; trace := trace w |}.
Definition set_lock_count (n : nat) (w : World) : World :=
  {| mlmd := mlmd w; task_queue := task_queue w; clock := clock w;
     lock_count := n; trace := trace w |}.
Definition log (ev : Event) (w : World) : World :=
  {| mlmd := mlmd w; task_queue := task_queue w; clock := clock w;
     lock_count := lock_count w; trace := trace w ++ [ev] |}.

(** ** The monad *)

Inductive outcome (A : Type) :=
| Return (a : A)
| Raise (e : exn)
| OutOfFuel.
Arguments Return {A} a.
Arguments Raise {A} e.
Arguments OutOfFuel {A}.

Definition M (A : Type) : Type := World -> outcome A * World.

Definition ret {A} (a : A) : M A := fun w => (Return a, w).

Definition bind {A B} (m : M A) (k : A -> M B) : M B := fun w =>
  match m w with
  | (Return a, w') => k a w'
  | (Raise e, w') => (Raise e, w')
  | (OutOfFuel, w') => (OutOfFuel, w')
  end.

Definition raise {A} (e : exn) : M A := fun w => (Raise e, w).
Definition out_of_fuel {A} : M A := fun w => (OutOfFuel, w).

Declare Scope M_scope.
Delimit Scope M_scope with M.
Notation "x <- m ;; k" := (bind m (fun x => k))
  (at level 100, m at next level, right associativity) : M_scope.
Notation "m ;;; k" := (bind m (fun _ => k))
  (at level 100, right associativity) : M_scope.
Local Open Scope M_scope.

(** A [for] loop over a list. *)
Fixpoint for_each {A} (l : list A) (body : A -> M unit) : M unit :=
  match l with
  | [] => ret tt
  | x :: rest => body x ;;; for_each rest body
  end.

Definition lift_result {A} (r : exn + A) : M A :=
  match r with
  | inl e => raise e
  | inr a => ret a
  end.

(** ** Primitive effects *)

(** Modelled from the spec: [task_queue.py] is not among the sources; the
    queue is a FIFO of tasks (section 2) with the two operations of section 6.
    [task_queue.enqueue(task)]: *)
Definition enqueue (t : Task) : M unit := fun w =>
  (Return tt, log (EvEnqueue t) (set_task_queue (task_queue w ++ [t]) w)).

(** [task_queue.contains_task_id(task_id)] *)
Definition contains_task_id (q : list Task) (tid : TaskId) : bool :=
  existsb (fun t => bool_decide (task_id t = tid)) q.

(** [mlmd_handle.store.put_executions(es)] *)
Definition put_executions (es : list Execution) : M unit := fun w =>
  (Return tt,
   log (EvPutExecutions es) (set_mlmd (store_put_executions es (mlmd w)) w)).

(** [mlmd_handle.store.get_executions_by_id(ids)] *)
Definition get_executions_by_id (ids : list Z) : M (list Execution) := fun w =>
  let found := store_get_executions_by_id ids (mlmd w) in
  (Return found, log (EvGetExecutionsById ids found) w).

(** [l[0]] *)
Definition first_item {A} (l : list A) : M A :=
  match l with
  | [] => raise IndexError
  | x :: _ => ret x
  end.

(** [assert cond] *)
Definition assert_ (cond : bool) : M unit :=
  if cond then ret tt else raise AssertionError.

(** [with _PIPELINE_OPS_LOCK: body]; the lock is released however the body
    ends. *)
Definition with_lock {A} (body : M A) : M A := fun w =>
  let (r, w') := body (set_lock_count (S (lock_count w)) w) in
  (r, set_lock_count (Nat.pred (lock_count w')) w').

(** [_pipeline_ops_lock] *)
Definition _pipeline_ops_lock {A} (fn : M A) : M A := with_lock fn.

(** [_to_status_not_ok_error] *)
Definition _to_status_not_ok_error {A} (fn_name : string) (fn : M A) : M A :=
  fun w =>
    match fn w with
    | (Raise (StatusNotOkError code message), w') =>
        (Raise (StatusNotOkError code message), w')
    | (Raise (PyException _ str_e), w') =>
        (Raise (StatusNotOkError UNKNOWN
                  ("`" +:+ fn_name +:+ "` error: " +:+ str_e)), w')
    | (r, w') => (r, w')
    end.

(** ** Interfaces of the imported modules *)

(** [pipeline_state.PipelineState]: the in-memory view of one pipeline. *)
Record PipelineState := mkPipelineState {
  pipeline : Pipeline;
  execution : Execution;
  context : Context
}.

Definition pipeline_uid (pipeline_state : PipelineState) : PipelineUid :=
  PipelineUid_from_pipeline (pipeline pipeline_state).

(** The operations of [pipeline_state.py] that [pipeline_ops.py] calls.  Reads
    see the store; [PipelineState_new] also writes it; [PipelineState_exit] is
    what leaving a [with] block does to the store (the write-back). *)
Class PipelineStateLib := {
  get_orchestrator_contexts : Store -> list Context;
  PipelineState_load_from_orchestrator_context :
    Store -> Context -> exn + PipelineState;
  PipelineState_new : Pipeline -> Store -> (exn + PipelineState) * Store;
  PipelineState_load : PipelineUid -> Store -> exn + PipelineState;
  PipelineState_exit : PipelineState -> Store -> Store;
  PipelineState_initiate_stop : PipelineState -> PipelineState;
  PipelineState_is_stop_initiated : PipelineState -> bool;
  PipelineState_initiate_node_start :
    NodeUid -> PipelineState -> PipelineState;
  PipelineState_initiate_node_stop :
    NodeUid -> PipelineState -> exn + PipelineState;
  PipelineState_is_node_stop_initiated : PipelineState -> NodeUid -> bool
}.

(** The operations of [task_gen_utils.py] whose result depends on parts of the
    IR and of the store that are not modelled. *)
Class TaskGenUtils := {
  is_feasible_node : PipelineNode -> bool;
  get_executions : Store -> PipelineNode -> list Execution
}.

(** [generate()] of the two task generators: they see the IR, the queue
    predicate and the store, may add records to the store, and return a batch
    of tasks or raise. *)
Class TaskGenerators := {
  sync_generate :
    Pipeline -> (TaskId -> bool) -> Store -> (exn + list Task) * Store;
  async_generate :
    Pipeline -> (TaskId -> bool) -> gset string -> Store ->
    (exn + list Task) * Store
}.

(** What happens outside this thread.  [elapse t] is the time that passes
    between a reading [t] of [time.time()] and the next look at the clock;
    [oversleep t d] is how much longer than [d] a [time.sleep(d)] started at
    [t] lasts; [other_threads t t'] is what the other threads write to the
    store between [t] and [t']. *)
Class Environment := {
  elapse : Q -> Q;
  oversleep : Q -> Q -> Q;
  other_threads : Q -> Q -> Store -> Store
}.

(** Arithmetic on Python's [float], which is binary64: a sum, a difference or
    a quotient is the exact result rounded to a number that binary64 has.  How
    it rounds is left to the instance; comparisons, [min] and [max] are
    exact. *)
Class FloatArithmetic := {
  float_add : Q -> Q -> Q;
  float_sub : Q -> Q -> Q;
  float_div : Q -> Q -> Q
}.

(** How Python prints the values that the error messages interpolate. *)
Class PyRepr := {
  repr_pipeline_uid : PipelineUid -> string;
  repr_node_uid : NodeUid -> string;
  repr_execution_mode : ExecutionMode -> string;
  repr_float : Q -> string
}.

(** Modelled from the spec: [task_gen_utils.generate_task_from_active_execution]
    is not among the sources.  Section 4.H.3: if exactly one of the node's
    executions is active, a synthetic [ExecNodeTask] carrying [is_cancelled];
    otherwise nothing. *)
Definition generate_task_from_active_execution
    (pipeline : Pipeline) (node : PipelineNode)
    (executions : list Execution) (is_cancelled : bool) : option Task :=
  match List.filter is_execution_active executions with
  | [_] =>
      Some (ExecNodeTask (NodeUid_from_pipeline_node pipeline node)
              is_cancelled)
  | _ => None
  end.

(** ** pipeline_ops.py *)

Definition DEFAULT_WAIT_FOR_INACTIVATION_TIMEOUT_SECS : Q := 120.

Section pipeline_ops.
Context {pstate : PipelineStateLib} {utils : TaskGenUtils}
  {generators : TaskGenerators} {env : Environment}
  {arith : FloatArithmetic} {repr : PyRepr}.

Definition lift_store {A} (f : Store -> (exn + A) * Store) : M A := fun w =>
  let (r, st) := f (mlmd w) in
  match r with
  | inl e => (Raise e, set_mlmd st w)
  | inr a => (Return a, set_mlmd st w)
  end.

(** The clock moves by [dt]; meanwhile the other threads run. *)
Definition advance_clock (dt : Q) (w : World) : World :=
  let t := clock w in
  let t' := (t + dt)%Q in
  set_clock t' (set_mlmd (other_threads t t' (mlmd w)) w).

(** [time.time()] *)
Definition time_time : M Q := fun w =>
  (Return (clock w), advance_clock (elapse (clock w)) w).

(** [time.sleep(secs)] *)
Definition time_sleep (secs : Q) : M unit := fun w =>
  (Return tt,
   advance_clock (secs + oversleep (clock w) secs)%Q (log (EvSleep secs) w)).

(** [generator.generate()] *)
Definition generate (g : Generator) : M (list Task) := fun w =>
  let w1 := log (EvGenerate g) w in
  let task_in_queue := contains_task_id (task_queue w1) in
  lift_store
    match g with
    | SyncPipelineTaskGenerator p => sync_generate p task_in_queue
    | AsyncPipelineTaskGenerator p ignore_node_ids =>
        async_generate p task_in_queue ignore_node_ids
    end w1.

(** [with acquire as pipeline_state: body]: the body returns the state as it
    has mutated it; the block is left through [PipelineState_exit] whether
    the body returns or raises. *)
Definition with_pipeline_state {A}
    (acquire : M PipelineState)
    (body : PipelineState -> M (PipelineState * A)) : M (PipelineState * A) :=
  fun w =>
    match acquire w with
    | (Return pipeline_state, w1) =>
        match body pipeline_state w1 with
        | (Return (pipeline_state', a), w2) =>
            (Return (pipeline_state', a),
             set_mlmd (PipelineState_exit pipeline_state' (mlmd w2)) w2)
        | (r, w2) =>
            (r, set_mlmd (PipelineState_exit pipeline_state (mlmd w2)) w2)
        end
    | (Raise e, w1) => (Raise e, w1)
    | (OutOfFuel, w1) => (OutOfFuel, w1)
    end.

Definition read_store {A} (f : Store -> exn + A) : M A := fun w =>
  lift_result (f (mlmd w)) w.

(** The body of [initiate_pipeline_start], inside its two decorators. *)
Definition initiate_pipeline_start_body (pipeline : Pipeline)
  : M PipelineState :=
  r <- with_pipeline_state (lift_store (PipelineState_new pipeline))
         (fun pipeline_state => ret (pipeline_state, tt)) ;;
  ret (fst r).

(** [initiate_pipeline_start] *)
Definition initiate_pipeline_start (pipeline : Pipeline) : M PipelineState :=
  _to_status_not_ok_error "initiate_pipeline_start"
    (_pipeline_ops_lock (initiate_pipeline_start_body pipeline)).

(** The [while] loop of [_wait_for_inactivation]; [fuel] bounds the number of
    times its condition is evaluated. *)
Fixpoint _wait_loop (fuel : nat) (execution : Execution)
    (timeout_secs polling_interval_secs end_time : Q) : M unit :=
  match fuel with
  | O => out_of_fuel
  | S fuel' =>
      now <- time_time ;;
      if Qlt_le_dec 0 (float_sub end_time now) then
        updated_executions <- get_executions_by_id [exec_id execution] ;;
        updated <- first_item updated_executions ;;
        if negb (is_execution_active updated) then ret tt
        else
          now' <- time_time ;;
          time_sleep
            (Qmax 0 (Qmin polling_interval_secs (float_sub end_time now'))) ;;;
          _wait_loop fuel' execution timeout_secs polling_interval_secs
            end_time
      else
        raise (StatusNotOkError DEADLINE_EXCEEDED
                 ("Timed out (" +:+ repr_float timeout_secs
                  +:+ " secs) waiting for execution inactivation."))
  end.

(** The body of [_wait_for_inactivation], inside its decorator. *)
Definition _wait_for_inactivation_body (fuel : nat) (execution : Execution)
    (timeout_secs : Q) : M unit :=
  let polling_interval_secs := Qmin 10 (float_div timeout_secs 4) in
  now <- time_time ;;
  let end_time := float_add now timeout_secs in
  _wait_loop fuel execution timeout_secs polling_interval_secs end_time.

(** [_wait_for_inactivation] *)
Definition _wait_for_inactivation (fuel : nat) (execution : Execution)
    (timeout_secs : Q) : M unit :=
  _to_status_not_ok_error "_wait_for_inactivation"
    (_wait_for_inactivation_body fuel execution timeout_secs).

(** The body of [stop_pipeline], inside its decorator. *)
Definition stop_pipeline_body (fuel : nat) (pipeline_uid : PipelineUid)
    (timeout_secs : Q) : M unit :=
  r <- with_lock
         (with_pipeline_state (read_store (PipelineState_load pipeline_uid))
            (fun pipeline_state =>
               ret (PipelineState_initiate_stop pipeline_state, tt))) ;;
  let pipeline_state := fst r in
  _wait_for_inactivation fuel (execution pipeline_state) timeout_secs.

(** [stop_pipeline] *)
Definition stop_pipeline (fuel : nat) (pipeline_uid : PipelineUid)
    (timeout_secs : Q) : M unit :=
  _to_status_not_ok_error "stop_pipeline"
    (stop_pipeline_body fuel pipeline_uid timeout_secs).

(** The body of [initiate_node_start], inside its two decorators. *)
Definition initiate_node_start_body (node_uid : NodeUid) : M PipelineState :=
  r <- with_pipeline_state
         (read_store (PipelineState_load (pipeline_uid_of node_uid)))
         (fun pipeline_state =>
            ret (PipelineState_initiate_node_start node_uid pipeline_state,
                 tt)) ;;
  ret (fst r).

(** [initiate_node_start] *)
Definition initiate_node_start (node_uid : NodeUid) : M PipelineState :=
  _to_status_not_ok_error "initiate_node_start"
    (_pipeline_ops_lock (initiate_node_start_body node_uid)).

(** The part of [stop_node] that runs under the lock.  It yields [None]
    where the Python returns from inside the [with] block, and the active
    executions where control falls out of the block. *)
Definition _stop_node_locked (node_uid : NodeUid)
  : M (option (list Execution)) :=
  with_lock
    (r <- with_pipeline_state
            (read_store (PipelineState_load (pipeline_uid_of node_uid)))
            (fun pipeline_state =>
               let nodes := get_all_pipeline_nodes (pipeline pipeline_state) in
               let filtered_nodes :=
                 List.filter
                   (fun n => bool_decide (node_info_id n = node_id node_uid))
                   nodes in
               if negb (length filtered_nodes =? 1)%nat then
                 raise (StatusNotOkError INTERNAL
                          ("`stop_node` operation failed, unable to find "
                           +:+ "node to stop: " +:+ repr_node_uid node_uid))
               else
                 node <- first_item filtered_nodes ;;
                 pipeline_state' <-
                   lift_result
                     (PipelineState_initiate_node_stop node_uid
                        pipeline_state) ;;
                 ret (pipeline_state', node)) ;;
     let node := snd r in
     executions <- (fun w => ret (get_executions (mlmd w) node) w) ;;
     let active_executions := List.filter is_execution_active executions in
     match active_executions with
     | [] =>
         (* If there are no active executions, we're done. *)
         ret None
     | _ =>
         if (1 <? length active_executions)%nat then
           raise (StatusNotOkError INTERNAL
                    ("Unexpected multiple active executions for node: "
                     +:+ repr_node_uid node_uid))
         else ret (Some active_executions)
     end).

(** The body of [stop_node], inside its decorator. *)
Definition stop_node_body (fuel : nat) (node_uid : NodeUid)
    (timeout_secs : Q) : M unit :=
  locked <- _stop_node_locked node_uid ;;
  match locked with
  | None => ret tt
  | Some active_executions =>
      execution <- first_item active_executions ;;
      _wait_for_inactivation fuel execution timeout_secs
  end.

(** [stop_node] *)
Definition stop_node (fuel : nat) (node_uid : NodeUid) (timeout_secs : Q)
  : M unit :=
  _to_status_not_ok_error "stop_node"
    (stop_node_body fuel node_uid timeout_secs).

(** [_maybe_enqueue_cancellation_task] *)
Definition _maybe_enqueue_cancellation_task
    (pipeline : Pipeline) (node : PipelineNode) : M bool :=
  if negb (is_feasible_node node) then ret false
  else
    let exec_node_task_id :=
      exec_node_task_id_from_pipeline_node pipeline node in
    fun w =>
      if contains_task_id (task_queue w) exec_node_task_id then
        (enqueue (CancelNodeTask (NodeUid_from_pipeline_node pipeline node)) ;;;
         ret true) w
      else
        let executions := get_executions (mlmd w) node in
        let exec_node_task :=
          generate_task_from_active_execution pipeline node executions true in
        match exec_node_task with
        | Some t => (enqueue t ;;; ret true) w
        | None => ret false w
        end.

(** [_get_stop_initiated_nodes] *)
Definition _get_stop_initiated_nodes (pipeline_state : PipelineState)
  : list PipelineNode :=
  let nodes := get_all_pipeline_nodes (pipeline pipeline_state) in
  List.filter
    (fun node =>
       let node_uid :=
         NodeUid_from_pipeline_node (pipeline pipeline_state) node in
       PipelineState_is_node_stop_initiated pipeline_state node_uid)
    nodes.

(** The loop of [_get_pipeline_states] over the contexts still to load. *)
Fixpoint _get_pipeline_states_loop
    (contexts : list Context) (result : list PipelineState)
  : M (list PipelineState) :=
  match contexts with
  | [] => ret result
  | context :: rest => fun w =>
      match PipelineState_load_from_orchestrator_context (mlmd w) context with
      | inl (StatusNotOkError NOT_FOUND _) =>
          (* old context with no active pipeline: continue *)
          _get_pipeline_states_loop rest result w
      | inl e => raise e w
      | inr pipeline_state =>
          _get_pipeline_states_loop rest (result ++ [pipeline_state]) w
      end
  end.

(** [_get_pipeline_states] *)
Definition _get_pipeline_states : M (list PipelineState) := fun w =>
  let contexts := get_orchestrator_contexts (mlmd w) in
  _get_pipeline_states_loop contexts [] w.

(** The inner loop of [_process_stop_initiated_pipelines] over the nodes of
    one pipeline, carrying [has_active_executions]. *)
Fixpoint _cancel_nodes (pipeline : Pipeline) (nodes : list PipelineNode)
    (has_active_executions : bool) : M bool :=
  match nodes with
  | [] => ret has_active_executions
  | node :: rest =>
      enqueued <- _maybe_enqueue_cancellation_task pipeline node ;;
      _cancel_nodes pipeline rest
        (if enqueued then true else has_active_executions)
  end.

(** The body of the loop of [_process_stop_initiated_pipelines]. *)
Definition _process_stop_initiated_pipeline (pipeline_state : PipelineState)
  : M unit :=
  let pipeline := pipeline pipeline_state in
  let execution := execution pipeline_state in
  has_active_executions <-
    _cancel_nodes pipeline (get_all_pipeline_nodes pipeline) false ;;
  if negb has_active_executions then
    let updated_execution := with_last_known_state CANCELED execution in
    put_executions [updated_execution]
  else ret tt.

(** [_process_stop_initiated_pipelines] *)
Definition _process_stop_initiated_pipelines
    (pipeline_states : list PipelineState) : M unit :=
  for_each pipeline_states _process_stop_initiated_pipeline.

(** The [if]/[elif]/[else] of [_process_active_pipelines] that initialises
    the task generator. *)
Definition _init_generator (pipeline : Pipeline)
    (stop_initiated_nodes : list PipelineNode) : M Generator :=
  match execution_mode pipeline with
  | SYNC => ret (SyncPipelineTaskGenerator pipeline)
  | ASYNC =>
      ret (AsyncPipelineTaskGenerator pipeline
             (list_to_set (map node_info_id stop_initiated_nodes)))
  | mode =>
      raise (StatusNotOkError FAILED_PRECONDITION
               ("Only SYNC and ASYNC pipeline execution modes supported; "
                +:+ "found pipeline with execution mode: "
                +:+ repr_execution_mode mode))
  end.

(** The [assert] of [_process_active_pipelines]. *)
Definition _assert_active (execution : Execution) : M unit :=
  assert_ (bool_decide (last_known_state execution = NEW)
           || bool_decide (last_known_state execution = RUNNING)).

(** The loop body of [_process_active_pipelines] from the comment "Create
    cancellation tasks" to its end: what follows the state transition. *)
Definition _cancel_generate_enqueue (pipeline_state : PipelineState) : M unit :=
  let pipeline := pipeline pipeline_state in
  (* Create cancellation tasks for stop-initiated nodes if necessary. *)
  let stop_initiated_nodes := _get_stop_initiated_nodes pipeline_state in
  for_each stop_initiated_nodes
    (fun node =>
       _ <- _maybe_enqueue_cancellation_task pipeline node ;; ret tt) ;;;
  (* Initialize task generator for the pipeline. *)
  generator <- _init_generator pipeline stop_initiated_nodes ;;
  tasks <- generate generator ;;
  for_each tasks enqueue.

(** The body of the loop of [_process_active_pipelines]. *)
Definition _process_active_pipeline (pipeline_state : PipelineState)
  : M unit :=
  let execution := execution pipeline_state in
  _assert_active execution ;;;
  (if negb (bool_decide (last_known_state execution = RUNNING)) then
     let updated_execution := with_last_known_state RUNNING execution in
     put_executions [updated_execution]
   else ret tt) ;;;
  _cancel_generate_enqueue pipeline_state.

(** [_process_active_pipelines] *)
Definition _process_active_pipelines
    (pipeline_states : list PipelineState) : M unit :=
  for_each pipeline_states _process_active_pipeline.

(** The classification loop of [generate_tasks], carrying the two lists. *)
Fixpoint _classify (pipeline_states : list PipelineState)
    (active_pipeline_states stop_initiated_pipeline_states : list PipelineState)
  : M (list PipelineState * list PipelineState) :=
  match pipeline_states with
  | [] => ret (active_pipeline_states, stop_initiated_pipeline_states)
  | pipeline_state :: rest =>
      if PipelineState_is_stop_initiated pipeline_state then
        _classify rest active_pipeline_states
          (stop_initiated_pipeline_states ++ [pipeline_state])
      else if is_execution_active (execution pipeline_state) then
        _classify rest (active_pipeline_states ++ [pipeline_state])
          stop_initiated_pipeline_states
      else
        raise (StatusNotOkError INTERNAL
                 ("Found pipeline (uid: "
                  +:+ repr_pipeline_uid (pipeline_uid pipeline_state)
                  +:+ ") which is neither active nor stop-initiated."))
  end.

(** The body of [generate_tasks], inside its two decorators. *)
Definition generate_tasks_body : M unit :=
  pipeline_states <- _get_pipeline_states ;;
  match pipeline_states with
  | [] => ret tt   (* No active pipelines to run. *)
  | _ =>
      classes <- _classify pipeline_states [] [] ;;
      let '(active_pipeline_states, stop_initiated_pipeline_states) :=
        classes in
      (match stop_initiated_pipeline_states with
       | [] => ret tt
       | _ => _process_stop_initiated_pipelines stop_initiated_pipeline_states
       end) ;;;
      (match active_pipeline_states with
       | [] => ret tt
       | _ => _process_active_pipelines active_pipeline_states
       end)
  end.

(** [generate_tasks] *)
Definition generate_tasks : M unit :=
  _to_status_not_ok_error "generate_tasks"
    (_pipeline_ops_lock generate_tasks_body).
End pipeline_ops.

(** ** Vocabulary of the statements

    Notions that the theorems use to say what the code does: they describe
    the specification's words, and are not part of the embedded code. *)

Section vocabulary.
Context {pstate : PipelineStateLib} {utils : TaskGenUtils}
  {generators : TaskGenerators} {env : Environment}
  {arith : FloatArithmetic} {repr : PyRepr}.

(** What [_to_status_not_ok_error] turns an exception into: a structured error
    is kept as it is, any other becomes UNKNOWN and keeps its message. *)
Definition to_status (fn_name : string) (e : exn) : exn :=
  match e with
  | StatusNotOkError code message => StatusNotOkError code message
  | PyException _ str_e =>
      StatusNotOkError UNKNOWN ("`" +:+ fn_name +:+ "` error: " +:+ str_e)
  end.

(** A context is stale (its load fails with NOT_FOUND) or loads. *)
Definition stale_or_loaded (st : Store) (c : Context) : Prop :=
  match PipelineState_load_from_orchestrator_context st c with
  | inl (StatusNotOkError NOT_FOUND _) => True
  | inl _ => False
  | inr _ => True
  end.

(** The pipeline state that a context loads to, if it does. *)
Definition loaded (st : Store) (c : Context) : option PipelineState :=
  match PipelineState_load_from_orchestrator_context st c with
  | inl _ => None
  | inr ps => Some ps
  end.

(** The classes of section 4.H.2: a pipeline state is stop-initiated when
    [is_stop_initiated()] holds, active when it is not stop-initiated and its
    execution is active, and invalid when it is neither. *)
Definition neither (ps : PipelineState) : bool :=
  negb (PipelineState_is_stop_initiated ps)
  && negb (is_execution_active (execution ps)).

Definition only_active (ps : PipelineState) : bool :=
  negb (PipelineState_is_stop_initiated ps)
  && is_execution_active (execution ps).

(** The messages of the errors that the module raises. *)
Definition neither_message (ps : PipelineState) : string :=
  "Found pipeline (uid: " +:+ repr_pipeline_uid (pipeline_uid ps)
  +:+ ") which is neither active nor stop-initiated.".

Definition unsupported_mode_message (mode : ExecutionMode) : string :=
  "Only SYNC and ASYNC pipeline execution modes supported; "
  +:+ "found pipeline with execution mode: " +:+ repr_execution_mode mode.

Definition node_not_found_message (node_uid : NodeUid) : string :=
  "`stop_node` operation failed, unable to find node to stop: "
  +:+ repr_node_uid node_uid.

Definition multiple_active_message (node_uid : NodeUid) : string :=
  "Unexpected multiple active executions for node: " +:+ repr_node_uid node_uid.

Definition deadline_message (timeout_secs : Q) : string :=
  "Timed out (" +:+ repr_float timeout_secs
  +:+ " secs) waiting for execution inactivation.".

(** The phases of the tick once the scan has produced [pss]. *)
Definition tick_phases (pss : list PipelineState) : M unit :=
  classes <- _classify pss [] [] ;;
  _process_stop_initiated_pipelines (snd classes) ;;;
  _process_active_pipelines (fst classes).

(** A computation that neither reads nor writes the lock. *)
Definition lock_oblivious {A} (m : M A) : Prop :=
  forall n w, m (set_lock_count n w) = (fst (m w), set_lock_count n (snd (m w))).

(** [sweep pipeline nodes w flags w']: calling
    [_maybe_enqueue_cancellation_task] on each of [nodes] in turn, from the
    world [w], returns [flags] in that order and ends in the world [w']. *)
Inductive sweep (pipeline : Pipeline)
  : list PipelineNode -> World -> list bool -> World -> Prop :=
| sweep_nil (w : World) : sweep pipeline [] w [] w
| sweep_cons (node : PipelineNode) (rest : list PipelineNode)
    (w w1 w' : World) (enqueued : bool) (flags : list bool) :
    _maybe_enqueue_cancellation_task pipeline node w = (Return enqueued, w1) ->
    sweep pipeline rest w1 flags w' ->
    sweep pipeline (node :: rest) w (enqueued :: flags) w'.

(** Every event that [m] adds to the trace satisfies [P]. *)
Definition emits {A} (P : Event -> Prop) (m : M A) : Prop :=
  forall w, exists evs,
    trace (snd (m w)) = trace w ++ evs /\ Forall P evs.

Definition not_put (ev : Event) : Prop :=
  match ev with
  | EvPutExecutions _ => False
  | _ => True
  end.

(** What a poll of the store has observed. *)
Definition is_poll (ev : Event) : Prop :=
  match ev with
  | EvGetExecutionsById _ _ => True
  | _ => False
  end.

Definition saw_inactive (ev : Event) : Prop :=
  match ev with
  | EvGetExecutionsById _ (e :: _) => is_execution_active e = false
  | _ => False
  end.

Definition saw_nothing (ev : Event) : Prop :=
  match ev with
  | EvGetExecutionsById _ [] => True
  | _ => False
  end.

(** The event is not a poll, or it is a poll that found the record active. *)
Definition saw_active_if_poll (ev : Event) : Prop :=
  match ev with
  | EvGetExecutionsById _ (e :: _) => is_execution_active e = true
  | EvGetExecutionsById _ [] => False
  | _ => True
  end.

(** Every sleep lasts between 0 and [pi] seconds, and a sleep that is followed
    by another poll lasts [pi] seconds. *)
Fixpoint polling_intervals (pi : Q) (evs : list Event) : Prop :=
  match evs with
  | [] => True
  | EvSleep d :: rest =>
      (0 <= d)%Q /\ (d <= pi)%Q /\ (Exists is_poll rest -> (d == pi)%Q) /\
      polling_intervals pi rest
  | _ :: rest => polling_intervals pi rest
  end.

(** Assumptions on the environment: time does not run backwards and a sleep
    is not cut short; the other threads do not delete record [i]; they leave
    record [i] inactive once it is. *)
Definition honest_clock : Prop :=
  (forall t, (0 <= elapse t)%Q) /\ (forall t d, (0 <= oversleep t d)%Q).

Definition keeps_record (i : Z) : Prop :=
  forall t t' st,
    is_Some (executions st !! i) ->
    is_Some (executions (other_threads t t' st) !! i).

Definition stays_inactive (i : Z) : Prop :=
  forall t t' st e,
    executions st !! i = Some e -> is_execution_active e = false ->
    exists e', executions (other_threads t t' st) !! i = Some e' /\
               is_execution_active e' = false.

(** A computation that returns or raises: it does not depend on fuel. *)
Definition ends {A} (m : M A) : Prop :=
  forall w, fst (m w) <> OutOfFuel.

(** Every sleep lasts between 0 and [pi] seconds. *)
Definition sleep_within (pi : Q) (ev : Event) : Prop :=
  match ev with
  | EvSleep d => (0 <= d)%Q /\ (d <= pi)%Q
  | _ => True
  end.

(** Assumptions on the arithmetic.  The difference of two floats has the sign
    of the exact difference: binary64 has gradual underflow, so that [x - y]
    is zero only if [x = y]. *)
Definition difference_sign : Prop :=
  forall a b, (0 < float_sub a b <-> b < a)%Q.

(** The differences are exact.  In binary64 [x - y] is exact when
    [y <= x <= 2 * y]; the differences that the wait computes, deadline minus
    clock, are of this kind when the clock reads at least [timeout_secs], as
    the seconds since 1970 do. *)
Definition exact_differences : Prop :=
  forall a b, (float_sub a b == a - b)%Q.

(** Nothing is rounded at all. *)
Definition no_rounding : Prop :=
  (forall a b, float_add a b == a + b)%Q /\
  exact_differences /\
  (forall a b, ~ b == 0 -> float_div a b == a / b)%Q.

(** Evaluations of the loop condition that suffice for a wait to end when
    [span] seconds are left and it sleeps [pi] seconds between two polls. *)
Definition loop_fuel (span pi : Q) : nat :=
  S (Z.to_nat (Qceiling (span / pi))).

(** Evaluations of the loop condition that suffice for a wait of
    [timeout_secs] to end when nothing is rounded. *)
Definition wait_fuel (timeout_secs : Q) : nat :=
  S (Z.to_nat (Z.max 4 (Qceiling (timeout_secs / 10)))).

End vocabulary.

(** ** A reference implementation of the interfaces

    Used to run the scenarios of section 8 of the specification and to
    instantiate the theorems at concrete inputs. *)

Module Reference.

Definition ORCHESTRATOR_CONTEXT_TYPE : string := "__ORCHESTRATOR__".
Definition NODE_CONTEXT_TYPE : string := "node".
Definition STOP_INITIATED : string := "stop_initiated".
Definition NODE_STOP_INITIATED_PREFIX : string := "node_stop_initiated_".
Definition PIPELINE_IR : string := "pipeline_ir".

Definition flag_set (e : Execution) (key : string) : bool :=
  match custom_properties e !! key with
  | Some (IntValue 1) => true
  | _ => false
  end.

Definition with_property (key : string) (v : option Value) (e : Execution)
  : Execution :=
  {| exec_id := exec_id e;
     last_known_state := last_known_state e;
     custom_properties :=
       match v with
       | Some v => <[key := v]> (custom_properties e)
       | None => delete key (custom_properties e)
       end |}.

Definition with_execution (e : Execution) (ps : PipelineState)
  : PipelineState :=
  {| pipeline := pipeline ps; execution := e; context := context ps |}.

(** [store.get_executions_by_context] *)
Definition executions_by_context (st : Store) (cid : Z) : list Execution :=
  omap (fun a => if bool_decide (fst a = cid) then executions st !! snd a
                 else None)
       (associations st).

Definition find_context (st : Store) (type name : string) : option Context :=
  List.find
    (fun c =>
       bool_decide (ctx_type c = type) && bool_decide (ctx_name c = name))
    (contexts st).

Definition fresh_execution_id (st : Store) : Z :=
  1 + map_fold (fun k _ acc => Z.max k acc) 0 (executions st).

Definition fresh_context_id (st : Store) : Z :=
  1 + foldr (fun c acc => Z.max (ctx_id c) acc) 0 (contexts st).

Definition not_found (name : string) : exn :=
  StatusNotOkError NOT_FOUND ("No active pipeline with uid: " +:+ name).

(** Modelled from the spec: [PipelineState.load_from_orchestrator_context]
    reopens the latest active pipeline execution of the context and fails with
    NOT_FOUND if there is none (section 4.F). *)
Definition load_from_context (st : Store) (ctx : Context)
  : exn + PipelineState :=
  match rev (List.filter is_execution_active
               (executions_by_context st (ctx_id ctx))) with
  | [] => inl (not_found (ctx_name ctx))
  | e :: _ =>
      match custom_properties e !! PIPELINE_IR with
      | Some (PipelineIrValue ir) =>
          inr {| pipeline := ir; execution := e; context := ctx |}
      | _ => inl (PyException "KeyError" PIPELINE_IR)
      end
  end.

(** Modelled from the spec: [PipelineState.load] (section 4.F). *)
Definition load (uid : PipelineUid) (st : Store) : exn + PipelineState :=
  match find_context st ORCHESTRATOR_CONTEXT_TYPE (pipeline_id uid) with
  | None => inl (not_found (pipeline_id uid))
  | Some ctx => load_from_context st ctx
  end.

(** Modelled from the spec: [PipelineState.new] fails with ALREADY_EXISTS if
    the pipeline has an active execution; otherwise it inserts the context if
    absent and a NEW execution carrying the IR (section 4.F). *)
Definition new (ir : Pipeline) (st : Store) : (exn + PipelineState) * Store :=
  let name := pipeline_info_id ir in
  let ctx :=
    match find_context st ORCHESTRATOR_CONTEXT_TYPE name with
    | Some ctx => ctx
    | None =>
        {| ctx_id := fresh_context_id st;
           ctx_type := ORCHESTRATOR_CONTEXT_TYPE; ctx_name := name |}
    end in
  if existsb is_execution_active (executions_by_context st (ctx_id ctx)) then
    (inl (StatusNotOkError ALREADY_EXISTS
            ("Pipeline with uid " +:+ name +:+ " already active.")), st)
  else
    let e :=
      {| exec_id := fresh_execution_id st;
         last_known_state := NEW;
         custom_properties := {[ PIPELINE_IR := PipelineIrValue ir ]} |} in
    (inr {| pipeline := ir; execution := e; context := ctx |},
     {| contexts :=
          match find_context st ORCHESTRATOR_CONTEXT_TYPE name with
          | Some _ => contexts st
          | None => contexts st ++ [ctx]
          end;
        executions := <[exec_id e := e]> (executions st);
        associations := associations st ++ [(ctx_id ctx, exec_id e)] |}).

Definition node_in_pipeline (ir : Pipeline) (uid : NodeUid) : bool :=
  existsb
    (fun n => bool_decide (NodeUid_from_pipeline_node ir n = uid))
    (get_all_pipeline_nodes ir).

Definition node_stop_key (uid : NodeUid) : string :=
  NODE_STOP_INITIATED_PREFIX +:+ node_id uid.

(** Modelled from the spec: the operations of [PipelineState] (section 4.F).
    Stop flags are integer properties of the pipeline execution; leaving a
    [with] block writes the execution back. *)
#[global] Instance pipeline_state_lib : PipelineStateLib := {|
  get_orchestrator_contexts st :=
    List.filter
      (fun c => bool_decide (ctx_type c = ORCHESTRATOR_CONTEXT_TYPE))
      (contexts st);
  PipelineState_load_from_orchestrator_context := load_from_context;
  PipelineState_new := new;
  PipelineState_load := load;
  PipelineState_exit ps st := store_put_executions [execution ps] st;
  PipelineState_initiate_stop ps :=
    with_execution
      (with_property STOP_INITIATED (Some (IntValue 1)) (execution ps)) ps;
  PipelineState_is_stop_initiated ps := flag_set (execution ps) STOP_INITIATED;
  PipelineState_initiate_node_start uid ps :=
    with_execution (with_property (node_stop_key uid) None (execution ps)) ps;
  PipelineState_initiate_node_stop uid ps :=
    if node_in_pipeline (pipeline ps) uid then
      inr (with_execution
             (with_property (node_stop_key uid) (Some (IntValue 1))
                (execution ps)) ps)
    else
      inl (StatusNotOkError INTERNAL
             ("Node " +:+ node_id uid +:+ " does not belong to the pipeline."));
  PipelineState_is_node_stop_initiated ps uid :=
    flag_set (execution ps) (node_stop_key uid)
|}.

(** A stand-in for [task_gen_utils]: every node is executor-backed, and the
    executions of a node are those associated with the node context that
    bears its id. *)
#[global] Instance task_gen_utils : TaskGenUtils := {|
  is_feasible_node _ := true;
  get_executions st node :=
    match find_context st NODE_CONTEXT_TYPE (node_info_id node) with
    | Some ctx => executions_by_context st (ctx_id ctx)
    | None => []
    end
|}.

(** Stand-ins for the two generators: one [ExecNodeTask] for every node that
    has no task in the queue (and, in ASYNC mode, is not stop-initiated);
    dependencies are ignored. *)
Definition eager_tasks (ir : Pipeline) (skip : PipelineNode -> bool)
    (task_in_queue : TaskId -> bool) : list Task :=
  map (fun n => ExecNodeTask (NodeUid_from_pipeline_node ir n) false)
    (List.filter
       (fun n => negb (skip n)
                 && negb (task_in_queue
                            (exec_node_task_id_from_pipeline_node ir n)))
       (get_all_pipeline_nodes ir)).

#[global] Instance task_generators : TaskGenerators := {|
  sync_generate ir task_in_queue st :=
    (inr (eager_tasks ir (fun _ => false) task_in_queue), st);
  async_generate ir task_in_queue ignore_node_ids st :=
    (inr (eager_tasks ir
            (fun n => bool_decide (node_info_id n ∈ ignore_node_ids))
            task_in_queue), st)
|}.

(** A stand-in for Python's printing. *)
#[global] Instance py_repr : PyRepr := {|
  repr_pipeline_uid uid :=
    "PipelineUid(pipeline_id='" +:+ pipeline_id uid +:+ "')";
  repr_node_uid uid :=
    "NodeUid(pipeline_uid=PipelineUid(pipeline_id='"
    +:+ pipeline_id (pipeline_uid_of uid) +:+ "'), node_id='"
    +:+ node_id uid +:+ "')";
  repr_execution_mode mode :=
    match mode with
    | SYNC => "SYNC"
    | ASYNC => "ASYNC"
    | OtherMode _ => "EXECUTION_MODE_UNSPECIFIED"
    end;
  repr_float q :=
    match q with
    | Qmake n d => pretty n +:+ "/" +:+ pretty (Z.pos d)
    end
|}.

(** Binary64: rounding to the nearest number with 53 significant bits, ties
    to the even one.  The range of the exponent is not modelled: the times at
    hand are far from overflow and from the subnormal numbers. *)

(** The integer nearest to [q], the even one of two that are equally near. *)
Definition round_half_even (q : Q) : Z :=
  let f := Qfloor q in
  match (q - inject_Z f ?= 1 # 2)%Q with
  | Lt => f
  | Gt => f + 1
  | Eq => if Z.even f then f else f + 1
  end.

(** The integer part of the binary logarithm of a positive [q]. *)
Definition ilog2 (q : Q) : Z :=
  let k := Z.log2 (Qnum q) - Z.log2 (Z.pos (Qden q)) in
  if Qle_bool (2 ^ k)%Q q then k else k - 1.

Definition round_positive (q : Q) : Q :=
  let e := ilog2 q - 52 in
  Qred (inject_Z (round_half_even (q / 2 ^ e)%Q) * 2 ^ e)%Q.

Definition binary64 (q : Q) : Q :=
  match Qnum q with
  | Z0 => 0%Q
  | Zpos _ => round_positive q
  | Zneg _ => (- round_positive (- q))%Q
  end.

#[global] Instance binary64_arithmetic : FloatArithmetic := {|
  float_add a b := binary64 (a + b);
  float_sub a b := binary64 (a - b);
  float_div a b := binary64 (a / b)
|}.

(** Arithmetic that rounds nothing. *)
Definition exact_arithmetic : FloatArithmetic := {|
  float_add := Qplus;
  float_sub := Qminus;
  float_div := Qdiv
|}.

(** A clock that only moves while the thread sleeps, and no other thread. *)
Definition quiet_environment : Environment := {|
  elapse _ := 0%Q;
  oversleep _ _ := 0%Q;
  other_threads _ _ st := st
|}.

(** A clock that also moves by a microsecond between two looks at it. *)
Definition microsecond_environment : Environment := {|
  elapse _ := (1 # 1000000)%Q;
  oversleep _ _ := 0%Q;
  other_threads _ _ st := st
|}.

(** Another thread completes execution [i] once the clock has reached [t0]. *)
Definition completing_environment (i : Z) (t0 : Q) : Environment := {|
  elapse _ := 0%Q;
  oversleep _ _ := 0%Q;
  other_threads _ t' st :=
    if Qle_bool t0 t' then
      {| contexts := contexts st;
         executions := alter (with_last_known_state COMPLETE) i (executions st);
         associations := associations st |}
    else st
|}.

(** A store whose [load_from_orchestrator_context] answers as scripted; the
    other operations are those of [pipeline_state_lib]. *)
Definition scripted_pipeline_state_lib
    (script : Context -> exn + PipelineState) : PipelineStateLib := {|
  get_orchestrator_contexts := get_orchestrator_contexts;
  PipelineState_load_from_orchestrator_context _ ctx := script ctx;
  PipelineState_new := PipelineState_new;
  PipelineState_load := PipelineState_load;
  PipelineState_exit := PipelineState_exit;
  PipelineState_initiate_stop := PipelineState_initiate_stop;
  PipelineState_is_stop_initiated := PipelineState_is_stop_initiated;
  PipelineState_initiate_node_start := PipelineState_initiate_node_start;
  PipelineState_initiate_node_stop := PipelineState_initiate_node_stop;
  PipelineState_is_node_stop_initiated := PipelineState_is_node_stop_initiated
|}.

(** *** The data of the scenarios *)

Definition trainer : PipelineNode :=
  {| node_info_id := "Trainer"; upstream_nodes := []; downstream_nodes := [] |}.

Definition pipeline1 : Pipeline :=
  {| pipeline_info_id := "pipeline1"; execution_mode := ASYNC;
     nodes := [trainer] |}.

Definition uid1 : PipelineUid := PipelineUid_from_pipeline pipeline1.
Definition trainer_uid : NodeUid :=
  NodeUid_from_pipeline_node pipeline1 trainer.

Definition empty_store : Store :=
  {| contexts := []; executions := ∅; associations := [] |}.

Definition boot : World :=
  {| mlmd := empty_store; task_queue := []; clock := 0%Q; lock_count := O;
     trace := [] |}.

Definition context1 : Context :=
  {| ctx_id := 1; ctx_type := ORCHESTRATOR_CONTEXT_TYPE;
     ctx_name := "pipeline1" |}.

(** The pipeline execution of pipeline1, in a given state and with the given
    flags. *)
Definition execution1 (s : State) (flags : list string) : Execution :=
  {| exec_id := 1;
     last_known_state := s;
     custom_properties :=
       foldr (fun key props => <[key := IntValue 1]> props)
         {[ PIPELINE_IR := PipelineIrValue pipeline1 ]} flags |}.

Definition state1 (s : State) (flags : list string) : PipelineState :=
  {| pipeline := pipeline1; execution := execution1 s flags;
     context := context1 |}.

(** pipeline1 has been started. *)
Definition started : World := snd (initiate_pipeline_start pipeline1 boot).

(** Its stop has been requested; the caller did not wait (timeout 0). *)
Definition stop_requested : World :=
  snd (stop_pipeline (env := quiet_environment) 1 uid1 0 started).

(** The store holds an execution of Trainer that is RUNNING. *)
Definition trainer_context : Context :=
  {| ctx_id := 2; ctx_type := NODE_CONTEXT_TYPE; ctx_name := "Trainer" |}.

Definition trainer_execution : Execution :=
  {| exec_id := 2; last_known_state := RUNNING; custom_properties := ∅ |}.

Definition seed_trainer (w : World) : World :=
  set_mlmd
    {| contexts := contexts (mlmd w) ++ [trainer_context];
       executions := <[2 := trainer_execution]> (executions (mlmd w));
       associations := associations (mlmd w) ++ [(2, 2)] |} w.

Definition seeded : World := seed_trainer started.

(** The stop of Trainer has been requested; the caller did not wait. *)
Definition node_stop_requested : World :=
  snd (stop_node (env := quiet_environment) 1 trainer_uid 0 seeded).

(** The world in which [stop_node] starts to wait for Trainer. *)
Definition node_stop_committed : World :=
  set_mlmd
    (PipelineState_exit (state1 NEW [node_stop_key trainer_uid]) (mlmd seeded))
    seeded.

(** A pipeline whose execution mode is neither SYNC nor ASYNC. *)
Definition pipeline0 : Pipeline :=
  {| pipeline_info_id := "pipeline0"; execution_mode := OtherMode 0;
     nodes := [trainer] |}.

Definition state0 : PipelineState :=
  {| pipeline := pipeline0;
     execution :=
       {| exec_id := 1; last_known_state := NEW;
          custom_properties := {[ PIPELINE_IR := PipelineIrValue pipeline0 ]} |};
     context :=
       {| ctx_id := 1; ctx_type := ORCHESTRATOR_CONTEXT_TYPE;
          ctx_name := "pipeline0" |} |}.

Definition started0 : World := snd (initiate_pipeline_start pipeline0 boot).

(** Two orchestrator contexts: an old one, then one the store cannot load. *)
Definition context9 : Context :=
  {| ctx_id := 9; ctx_type := ORCHESTRATOR_CONTEXT_TYPE;
     ctx_name := "pipeline9" |}.

Definition two_contexts : World :=
  set_mlmd
    {| contexts := [context9; context1]; executions := ∅; associations := [] |}
    boot.

Definition stale_then_broken (ctx : Context) : exn + PipelineState :=
  if bool_decide (ctx_id ctx = 9)
  then inl (not_found (ctx_name ctx))
  else inl (StatusNotOkError FAILED_PRECONDITION "Corrupt pipeline IR.").

(** A pipeline execution that is COMPLETE and not stop-initiated. *)
Definition finished : PipelineState := state1 COMPLETE [].

Definition one_context : World :=
  set_mlmd
    {| contexts := [context1]; executions := {[ 1 := execution1 COMPLETE [] ]};
       associations := [(1, 1)] |}
    boot.

(** The state of a pipeline that was the [i]-th to be started. *)
Definition state_of (ir : Pipeline) (i : Z) (s : State) : PipelineState :=
  {| pipeline := ir;
     execution :=
       {| exec_id := i; last_known_state := s;
          custom_properties := {[ PIPELINE_IR := PipelineIrValue ir ]} |};
     context :=
       {| ctx_id := i; ctx_type := ORCHESTRATOR_CONTEXT_TYPE;
          ctx_name := pipeline_info_id ir |} |}.

Definition pipeline2 : Pipeline :=
  {| pipeline_info_id := "pipeline2"; execution_mode := SYNC;
     nodes := [trainer] |}.

(** pipeline1 and then pipeline2 have been started. *)
Definition started12 : World := snd (initiate_pipeline_start pipeline2 started).

(** pipeline0, whose execution mode is unspecified, and then pipeline1 have
    been started. *)
Definition started01 : World := snd (initiate_pipeline_start pipeline1 started0).

End Reference.

(** ** Properties *)

Section properties.
Context {pstate : PipelineStateLib} {utils : TaskGenUtils}
  {generators : TaskGenerators} {env : Environment}
  {arith : FloatArithmetic} {repr : PyRepr}.

Lemma maybe_enqueue_cases (pipeline : Pipeline) (node : PipelineNode) (w : World) :
  let node_uid := NodeUid_from_pipeline_node pipeline node in
  let active :=
    List.filter is_execution_active (get_executions (mlmd w) node) in
  let enqueued t := log (EvEnqueue t) (set_task_queue (task_queue w ++ [t]) w) in
  _maybe_enqueue_cancellation_task pipeline node w =
    if negb (is_feasible_node node) then (Return false, w)
    else if contains_task_id (task_queue w)
              (exec_node_task_id_from_pipeline_node pipeline node)
    then (Return true, enqueued (CancelNodeTask node_uid))
    else if (length active =? 1)%nat
    then (Return true, enqueued (ExecNodeTask node_uid true))
    else (Return false, w).
Proof.
  intros node_uid active enqueued.
  unfold _maybe_enqueue_cancellation_task.
  destruct (is_feasible_node node); simpl; [|reflexivity].
  destruct (contains_task_id _ _); [reflexivity|].
  unfold generate_task_from_active_execution.
  fold active. destruct active as [|e [|e' rest]]; reflexivity.
Qed.

(** *** The scan *)

Lemma scan_loop_world (cs : list Context) (acc : list PipelineState) (w : World) :
  snd (_get_pipeline_states_loop cs acc w) = w.
Proof.
  revert acc. induction cs as [|c cs IH]; intros acc; simpl; [reflexivity|].
  destruct (PipelineState_load_from_orchestrator_context (mlmd w) c) as [e|ps].
  - destruct e as [code msg|cls msg]; [destruct code|]; simpl; auto.
  - apply IH.
Qed.

Lemma scan_loop_ok (cs : list Context) (acc : list PipelineState) (w : World) :
  Forall (stale_or_loaded (mlmd w)) cs ->
  _get_pipeline_states_loop cs acc w =
    (Return (acc ++ omap (loaded (mlmd w)) cs), w).
Proof.
  revert acc. induction cs as [|c cs IH]; intros acc Hall; simpl.
  - rewrite app_nil_r. reflexivity.
  - inversion Hall as [|? ? Hc Hcs]; subst.
    unfold stale_or_loaded, loaded in *.
    destruct (PipelineState_load_from_orchestrator_context (mlmd w) c) as [e|ps].
    + destruct e as [code msg|cls msg]; [destruct code|]; try contradiction.
      apply IH; assumption.
    + rewrite IH by assumption. rewrite <- app_assoc. reflexivity.
Qed.

Lemma scan_loop_abort (pre : list Context) (c : Context) (post : list Context)
    (acc : list PipelineState) (w : World) (e : exn) :
  Forall (stale_or_loaded (mlmd w)) pre ->
  PipelineState_load_from_orchestrator_context (mlmd w) c = inl e ->
  (forall msg, e <> StatusNotOkError NOT_FOUND msg) ->
  _get_pipeline_states_loop (pre ++ c :: post) acc w = (Raise e, w).
Proof.
  revert acc. induction pre as [|c0 pre IH]; intros acc Hall Hc Hne; simpl.
  - rewrite Hc. destruct e as [code msg|cls msg]; [destruct code|];
      try reflexivity. exfalso. eapply Hne. reflexivity.
  - inversion Hall as [|? ? Hc0 Hpre]; subst.
    unfold stale_or_loaded in Hc0.
    destruct (PipelineState_load_from_orchestrator_context (mlmd w) c0) as [e0|ps].
    + destruct e0 as [code msg|cls msg]; [destruct code|]; try contradiction.
      apply IH; assumption.
    + apply IH; assumption.
Qed.

Lemma scan_loop_reads_store (cs : list Context) (acc : list PipelineState)
    (w w0 : World) :
  mlmd w = mlmd w0 ->
  fst (_get_pipeline_states_loop cs acc w) =
  fst (_get_pipeline_states_loop cs acc w0).
Proof.
  intros Hst. revert acc. induction cs as [|c cs IH]; intros acc; simpl;
    [reflexivity|].
  rewrite Hst.
  destruct (PipelineState_load_from_orchestrator_context (mlmd w0) c) as [e|ps].
  - destruct e as [code msg|cls msg]; [destruct code|]; simpl; auto.
  - apply IH.
Qed.

Lemma scan_under_lock (w : World) (n : nat) :
  _get_pipeline_states (set_lock_count n w) =
    (fst (_get_pipeline_states w), set_lock_count n w).
Proof.
  unfold _get_pipeline_states.
  rewrite (surjective_pairing (_get_pipeline_states_loop _ _ (set_lock_count n w))).
  rewrite scan_loop_world. f_equal.
  apply scan_loop_reads_store. reflexivity.
Qed.

Lemma scan_world (w : World) : snd (_get_pipeline_states w) = w.
Proof. apply scan_loop_world. Qed.

(** *** The decorator *)

Lemma decorator_raise {A} (name : string) (fn : M A) (w w' : World) (e : exn) :
  fn w = (Raise e, w') ->
  _to_status_not_ok_error name fn w = (Raise (to_status name e), w').
Proof.
  intros Hfn. unfold _to_status_not_ok_error. rewrite Hfn.
  destruct e; reflexivity.
Qed.

Lemma decorator_return {A} (name : string) (fn : M A) (w w' : World) (a : A) :
  fn w = (Return a, w') ->
  _to_status_not_ok_error name fn w = (Return a, w').
Proof. intros Hfn. unfold _to_status_not_ok_error. rewrite Hfn. reflexivity. Qed.

Lemma decorator_out_of_fuel {A} (name : string) (fn : M A) (w w' : World) :
  fn w = (OutOfFuel, w') ->
  _to_status_not_ok_error name fn w = (OutOfFuel, w').
Proof. intros Hfn. unfold _to_status_not_ok_error. rewrite Hfn. reflexivity. Qed.

Lemma with_lock_run {A} (m : M A) (w wl : World) (r : outcome A) :
  m (set_lock_count (S (lock_count w)) w) = (r, wl) ->
  with_lock m w = (r, set_lock_count (Nat.pred (lock_count wl)) wl).
Proof. intros Hm. unfold with_lock. rewrite Hm. reflexivity. Qed.

Lemma generate_tasks_scan_raise (w : World) (e : exn) :
  fst (_get_pipeline_states w) = Raise e ->
  generate_tasks w = (Raise (to_status "generate_tasks" e), w).
Proof.
  intros Hscan. unfold generate_tasks, _pipeline_ops_lock.
  apply decorator_raise.
  erewrite with_lock_run.
  2:{ unfold generate_tasks_body, bind. rewrite scan_under_lock, Hscan.
      reflexivity. }
  f_equal. destruct w; reflexivity.
Qed.

(** *** Classification *)

Lemma classify_spec (pss act stp : list PipelineState) (w : World) :
  _classify pss act stp w =
    match List.find neither pss with
    | Some bad => (Raise (StatusNotOkError INTERNAL (neither_message bad)), w)
    | None =>
        (Return (act ++ List.filter only_active pss,
                 stp ++ List.filter PipelineState_is_stop_initiated pss), w)
    end.
Proof.
  revert act stp. induction pss as [|ps pss IH]; intros act stp; simpl.
  - rewrite !app_nil_r. reflexivity.
  - unfold neither, only_active in *.
    destruct (PipelineState_is_stop_initiated ps); simpl.
    + rewrite IH. destruct (List.find _ pss); [reflexivity|].
      rewrite <- app_assoc. reflexivity.
    + destruct (is_execution_active (execution ps)); simpl.
      * rewrite IH. destruct (List.find _ pss); [reflexivity|].
        rewrite <- app_assoc. reflexivity.
      * reflexivity.
Qed.

Lemma for_each_guard {A} (l : list A) (body : A -> M unit) :
  match l with [] => ret tt | _ => for_each l body end = for_each l body.
Proof. destruct l; reflexivity. Qed.

Lemma generate_tasks_body_phases (w : World) (pss : list PipelineState) :
  _get_pipeline_states w = (Return pss, w) ->
  generate_tasks_body w = tick_phases pss w.
Proof.
  intros Hscan. unfold generate_tasks_body, tick_phases, bind at 1.
  rewrite Hscan. destruct pss as [|ps pss].
  - reflexivity.
  - unfold bind. destruct (_classify (ps :: pss) [] [] w) as [[[act stp]| |] w1];
      try reflexivity.
    simpl. unfold _process_stop_initiated_pipelines, _process_active_pipelines.
    rewrite !for_each_guard. reflexivity.
Qed.

(** *** The lock is invisible to sequential code *)

Lemma lock_oblivious_ret {A} (a : A) : lock_oblivious (ret a).
Proof. intros n w. reflexivity. Qed.

Lemma lock_oblivious_raise {A} (e : exn) : lock_oblivious (@raise A e).
Proof. intros n w. reflexivity. Qed.

Lemma lock_oblivious_bind {A B} (m : M A) (k : A -> M B) :
  lock_oblivious m -> (forall a, lock_oblivious (k a)) ->
  lock_oblivious (bind m k).
Proof.
  intros Hm Hk n w. unfold bind. rewrite Hm.
  destruct (m w) as [[a| |] w1]; simpl; try reflexivity.
  apply Hk.
Qed.

Lemma lock_oblivious_for_each {A} (l : list A) (body : A -> M unit) :
  (forall a, lock_oblivious (body a)) -> lock_oblivious (for_each l body).
Proof.
  intros Hbody. induction l as [|a l IH]; simpl.
  - apply lock_oblivious_ret.
  - apply lock_oblivious_bind; auto.
Qed.

Lemma lock_oblivious_enqueue (t : Task) : lock_oblivious (enqueue t).
Proof. intros n w. reflexivity. Qed.

Lemma lock_oblivious_put_executions (es : list Execution) :
  lock_oblivious (put_executions es).
Proof. intros n w. reflexivity. Qed.

Lemma lock_oblivious_maybe_enqueue (pipeline : Pipeline) (node : PipelineNode) :
  lock_oblivious (_maybe_enqueue_cancellation_task pipeline node).
Proof.
  intros n w. rewrite !maybe_enqueue_cases. simpl.
  destruct (is_feasible_node node); simpl; [|reflexivity].
  destruct (contains_task_id _ _); [reflexivity|].
  destruct (_ =? _)%nat; reflexivity.
Qed.

Lemma lock_oblivious_lift_store {A} (f : Store -> (exn + A) * Store) :
  lock_oblivious (lift_store f).
Proof.
  intros n w. unfold lift_store. simpl.
  destruct (f (mlmd w)) as [[e|a] st]; reflexivity.
Qed.

Lemma lock_oblivious_generate (g : Generator) : lock_oblivious (generate g).
Proof.
  intros n w. unfold generate.
  change (log (EvGenerate g) (set_lock_count n w))
    with (set_lock_count n (log (EvGenerate g) w)).
  rewrite lock_oblivious_lift_store. reflexivity.
Qed.

Lemma lock_oblivious_cancel_nodes (pipeline : Pipeline)
    (nodes : list PipelineNode) (b : bool) :
  lock_oblivious (_cancel_nodes pipeline nodes b).
Proof.
  revert b. induction nodes as [|node rest IH]; intros b; simpl.
  - apply lock_oblivious_ret.
  - apply lock_oblivious_bind; [apply lock_oblivious_maybe_enqueue|].
    intros a. apply IH.
Qed.

Lemma lock_oblivious_stop_initiated (ps : PipelineState) :
  lock_oblivious (_process_stop_initiated_pipeline ps).
Proof.
  unfold _process_stop_initiated_pipeline.
  apply lock_oblivious_bind; [apply lock_oblivious_cancel_nodes|].
  intros [|]; simpl.
  - apply lock_oblivious_ret.
  - apply lock_oblivious_put_executions.
Qed.

Lemma lock_oblivious_init_generator (pipeline : Pipeline)
    (stopped : list PipelineNode) :
  lock_oblivious (_init_generator pipeline stopped).
Proof. intros n w. unfold _init_generator. destruct (execution_mode _); reflexivity. Qed.

Lemma lock_oblivious_cancel_generate_enqueue (ps : PipelineState) :
  lock_oblivious (_cancel_generate_enqueue ps).
Proof.
  unfold _cancel_generate_enqueue.
  apply lock_oblivious_bind.
  { apply lock_oblivious_for_each. intros node.
    apply lock_oblivious_bind; [apply lock_oblivious_maybe_enqueue|].
    intros _. apply lock_oblivious_ret. }
  intros _. apply lock_oblivious_bind; [apply lock_oblivious_init_generator|].
  intros g. apply lock_oblivious_bind; [apply lock_oblivious_generate|].
  intros tasks. apply lock_oblivious_for_each. apply lock_oblivious_enqueue.
Qed.

Lemma lock_oblivious_active (ps : PipelineState) :
  lock_oblivious (_process_active_pipeline ps).
Proof.
  unfold _process_active_pipeline.
  apply lock_oblivious_bind.
  { unfold _assert_active, assert_. destruct (_ || _);
      [apply lock_oblivious_ret | apply lock_oblivious_raise]. }
  intros _. apply lock_oblivious_bind.
  { destruct (negb _); [apply lock_oblivious_put_executions
                       | apply lock_oblivious_ret]. }
  intros _. apply lock_oblivious_cancel_generate_enqueue.
Qed.

Lemma lock_oblivious_classify (pss act stp : list PipelineState) :
  lock_oblivious (_classify pss act stp).
Proof.
  intros n w. rewrite !classify_spec. destruct (List.find _ _); reflexivity.
Qed.

Lemma lock_oblivious_tick_phases (pss : list PipelineState) :
  lock_oblivious (tick_phases pss).
Proof.
  unfold tick_phases.
  apply lock_oblivious_bind; [apply lock_oblivious_classify|].
  intros classes. apply lock_oblivious_bind.
  - apply lock_oblivious_for_each, lock_oblivious_stop_initiated.
  - intros _. apply lock_oblivious_for_each, lock_oblivious_active.
Qed.

Lemma with_lock_oblivious {A} (m : M A) (w : World) :
  lock_oblivious m -> with_lock m w = m w.
Proof.
  intros Hm. unfold with_lock. rewrite Hm.
  assert (Hkeep : lock_count (snd (m w)) = lock_count w).
  { pose proof (Hm (lock_count w) w) as Heta.
    replace (set_lock_count (lock_count w) w) with w in Heta
      by (destruct w; reflexivity).
    destruct (m w) as [r w1]. simpl in *.
    injection Heta as Heta. rewrite Heta at 1. reflexivity. }
  destruct (m w) as [r w1]. simpl in *. f_equal.
  rewrite <- Hkeep. destruct w1; reflexivity.
Qed.

Lemma generate_tasks_run (w : World) (pss : list PipelineState) :
  _get_pipeline_states w = (Return pss, w) ->
  generate_tasks w = _to_status_not_ok_error "generate_tasks" (tick_phases pss) w.
Proof.
  intros Hscan. unfold generate_tasks, _pipeline_ops_lock, _to_status_not_ok_error.
  assert (Hlock : with_lock generate_tasks_body w = tick_phases pss w).
  { rewrite <- (with_lock_oblivious (tick_phases pss) w)
      by apply lock_oblivious_tick_phases.
    unfold with_lock.
    rewrite (generate_tasks_body_phases _ pss); [reflexivity|].
    rewrite scan_under_lock, Hscan. reflexivity. }
  rewrite Hlock. reflexivity.
Qed.

(** *** The sweep over the nodes of a stop-initiated pipeline *)

Lemma maybe_enqueue_effect (pipeline : Pipeline) (node : PipelineNode) (w : World) :
  exists b w',
    _maybe_enqueue_cancellation_task pipeline node w = (Return b, w') /\
    mlmd w' = mlmd w /\
    (b = false -> w' = w).
Proof.
  rewrite maybe_enqueue_cases. simpl.
  destruct (is_feasible_node node); simpl; [|eauto 6].
  destruct (contains_task_id _ _).
  { exists true. eexists. split; [reflexivity|]. split; [reflexivity|discriminate]. }
  destruct (_ =? _)%nat.
  - exists true. eexists. split; [reflexivity|]. split; [reflexivity|discriminate].
  - eauto 6.
Qed.

Lemma cancel_nodes_sweep (pipeline : Pipeline) (nodes : list PipelineNode)
    (b0 : bool) (w : World) :
  exists flags w',
    sweep pipeline nodes w flags w' /\
    _cancel_nodes pipeline nodes b0 w = (Return (b0 || existsb id flags), w').
Proof.
  revert b0 w. induction nodes as [|node rest IH]; intros b0 w; simpl.
  - exists [], w. split; [constructor|]. rewrite orb_false_r. reflexivity.
  - destruct (maybe_enqueue_effect pipeline node w) as (b & w1 & Hcall & _ & _).
    destruct (IH (if b then true else b0) w1) as (flags & w' & Hsweep & Hrest).
    exists (b :: flags), w'. split; [econstructor; eassumption|].
    unfold bind. rewrite Hcall, Hrest. simpl.
    destruct b, b0; reflexivity.
Qed.

Lemma sweep_length (pipeline : Pipeline) (nodes : list PipelineNode)
    (w w' : World) (flags : list bool) :
  sweep pipeline nodes w flags w' -> length flags = length nodes.
Proof. induction 1; simpl; congruence. Qed.

Lemma sweep_store (pipeline : Pipeline) (nodes : list PipelineNode)
    (w w' : World) (flags : list bool) :
  sweep pipeline nodes w flags w' -> mlmd w' = mlmd w.
Proof.
  induction 1 as [|node rest w w1 w' b flags Hcall _ IH]; [reflexivity|].
  destruct (maybe_enqueue_effect pipeline node w) as (b' & w1' & Hcall' & Hst & _).
  rewrite Hcall in Hcall'. injection Hcall' as -> ->. congruence.
Qed.

Lemma sweep_idle (pipeline : Pipeline) (nodes : list PipelineNode)
    (w w' : World) (flags : list bool) :
  sweep pipeline nodes w flags w' -> existsb id flags = false -> w' = w.
Proof.
  induction 1 as [|node rest w w1 w' b flags Hcall _ IH]; [reflexivity|].
  simpl. intros Hnone. apply orb_false_iff in Hnone as [Hb Hflags].
  unfold id in Hb. subst b.
  destruct (maybe_enqueue_effect pipeline node w) as (b' & w1' & Hcall' & _ & Hidle).
  rewrite Hcall in Hcall'. injection Hcall' as <- <-.
  rewrite IH by assumption. apply Hidle. reflexivity.
Qed.

Lemma put_executions_lookup (e : Execution) (w : World) :
  executions (mlmd (snd (put_executions [e] w))) !! exec_id e = Some e.
Proof. simpl. apply lookup_insert_eq. Qed.

(** *** The cancellation decision *)

(** C2.  [_maybe_enqueue_cancellation_task] returns false and leaves the world
    alone when the node is not feasible; otherwise, when the queue holds the
    node's ExecNodeTask id, it enqueues one CancelNodeTask for the node and
    returns true; otherwise, when exactly one of the node's executions is
    active, it enqueues one ExecNodeTask with [is_cancelled = true] and returns
    true; in the remaining cases it returns false and leaves the world alone.
    One [enqueue] appends one task to the queue and does not touch the
    store. *)
Theorem maybe_enqueue_cancellation_task_cases (pipeline : Pipeline)
    (node : PipelineNode) (w : World) :
  let node_uid := NodeUid_from_pipeline_node pipeline node in
  let active :=
    List.filter is_execution_active (get_executions (mlmd w) node) in
  let enqueued t := snd (enqueue t w) in
  _maybe_enqueue_cancellation_task pipeline node w =
    (if negb (is_feasible_node node) then (Return false, w)
     else if contains_task_id (task_queue w)
               (exec_node_task_id_from_pipeline_node pipeline node)
     then (Return true, enqueued (CancelNodeTask node_uid))
     else if (length active =? 1)%nat
     then (Return true, enqueued (ExecNodeTask node_uid true))
     else (Return false, w)) /\
  (forall t,
     task_queue (enqueued t) = task_queue w ++ [t] /\
     trace (enqueued t) = trace w ++ [EvEnqueue t] /\
     mlmd (enqueued t) = mlmd w).
Proof.
  intros node_uid active enqueued. split.
  - apply maybe_enqueue_cases.
  - intros t. repeat split.
Qed.

(** *** The tick, phase by phase *)

Lemma generate_tasks_phases (w : World) (pss : list PipelineState) :
  _get_pipeline_states w = (Return pss, w) ->
  List.find neither pss = None ->
  generate_tasks w =
    _to_status_not_ok_error "generate_tasks"
      (_process_stop_initiated_pipelines
         (List.filter PipelineState_is_stop_initiated pss) ;;;
       _process_active_pipelines (List.filter only_active pss)) w.
Proof.
  intros Hscan Hvalid. rewrite (generate_tasks_run w pss Hscan).
  unfold _to_status_not_ok_error, tick_phases, bind at 1.
  rewrite classify_spec, Hvalid. reflexivity.
Qed.

Lemma generate_tasks_invalid (w : World) (pss : list PipelineState)
    (bad : PipelineState) :
  _get_pipeline_states w = (Return pss, w) ->
  List.find neither pss = Some bad ->
  generate_tasks w =
    (Raise (StatusNotOkError INTERNAL (neither_message bad)), w).
Proof.
  intros Hscan Hbad. rewrite (generate_tasks_run w pss Hscan).
  unfold _to_status_not_ok_error, tick_phases, bind.
  rewrite classify_spec, Hbad. reflexivity.
Qed.

Lemma find_none_forall {A} (f : A -> bool) (l : list A) :
  List.find f l = None -> forall x, In x l -> f x = false.
Proof. intros Hnone x Hin. eapply find_none; eassumption. Qed.

(** C3.  Once the scan has loaded the pipeline states, each lands in exactly
    one class: stop-initiated when [is_stop_initiated()] holds, whatever the
    state of the execution; otherwise active when the execution is NEW or
    RUNNING.  If some state is neither, the tick fails with INTERNAL and the
    world is as before: nothing has been processed.  Otherwise the tick
    processes the stop-initiated states, then the active ones. *)
Theorem tick_classification (w : World) (pss : list PipelineState) :
  _get_pipeline_states w = (Return pss, w) ->
  match List.find neither pss with
  | Some bad =>
      In bad pss /\
      PipelineState_is_stop_initiated bad = false /\
      is_execution_active (execution bad) = false /\
      generate_tasks w =
        (Raise (StatusNotOkError INTERNAL (neither_message bad)), w)
  | None =>
      let stp := List.filter PipelineState_is_stop_initiated pss in
      let act := List.filter only_active pss in
      _classify pss [] [] w = (Return (act, stp), w) /\
      (forall ps, In ps stp <->
                  In ps pss /\ PipelineState_is_stop_initiated ps = true) /\
      (forall ps, In ps act <->
                  In ps pss /\ PipelineState_is_stop_initiated ps = false /\
                  (last_known_state (execution ps) = NEW \/
                   last_known_state (execution ps) = RUNNING)) /\
      (forall ps, In ps pss -> In ps stp \/ In ps act) /\
      (forall ps, ~ (In ps stp /\ In ps act)) /\
      generate_tasks w =
        _to_status_not_ok_error "generate_tasks"
          (_process_stop_initiated_pipelines stp ;;;
           _process_active_pipelines act) w
  end.
Proof.
  intros Hscan. destruct (List.find neither pss) as [bad|] eqn:Hfind.
  - pose proof (find_some _ _ Hfind) as [Hin Hbad].
    unfold neither in Hbad. apply andb_true_iff in Hbad as [Hs Ha].
    apply negb_true_iff in Hs, Ha.
    repeat split; try assumption.
    apply generate_tasks_invalid with pss; assumption.
  - intros stp act.
    assert (Hstp : forall ps, In ps stp <->
              In ps pss /\ PipelineState_is_stop_initiated ps = true).
    { intros ps. unfold stp. apply filter_In. }
    assert (Hact : forall ps, In ps act <->
              In ps pss /\ PipelineState_is_stop_initiated ps = false /\
              (last_known_state (execution ps) = NEW \/
               last_known_state (execution ps) = RUNNING)).
    { intros ps. unfold act. rewrite filter_In. unfold only_active.
      rewrite andb_true_iff, negb_true_iff. unfold is_execution_active.
      destruct (last_known_state (execution ps)); intuition congruence. }
    split; [rewrite classify_spec, Hfind; reflexivity|].
    split; [exact Hstp|]. split; [exact Hact|].
    split; [|split].
    + intros ps Hin. pose proof (find_none_forall _ _ Hfind ps Hin) as Hn.
      unfold neither in Hn. rewrite Hstp, Hact. unfold is_execution_active in Hn.
      destruct (PipelineState_is_stop_initiated ps);
        destruct (last_known_state (execution ps)); simpl in Hn;
        try discriminate; intuition.
    + intros ps [Hs Ha]. apply Hstp in Hs. apply Hact in Ha.
      destruct Hs as [_ Hs]. destruct Ha as (_ & Ha & _). congruence.
    + apply generate_tasks_phases; assumption.
Qed.

(** *** The scan: stale contexts and aborts *)

(** C7.  If every context either loads or fails to load with NOT_FOUND, the
    scan returns the states of those that load, in order: the others are
    skipped.  If, after contexts of that kind, a load fails in any other way,
    the scan stops with that error and so does the tick, a structured error
    reaching the caller unchanged; the world is as before the tick: no pipeline
    has been processed. *)
Theorem scan_skips_stale_aborts_otherwise (w : World) :
  let st := mlmd w in
  let cs := get_orchestrator_contexts st in
  (Forall (stale_or_loaded st) cs ->
   _get_pipeline_states w = (Return (omap (loaded st) cs), w)) /\
  (forall pre c post e,
     cs = pre ++ c :: post ->
     Forall (stale_or_loaded st) pre ->
     PipelineState_load_from_orchestrator_context st c = inl e ->
     (forall msg, e <> StatusNotOkError NOT_FOUND msg) ->
     _get_pipeline_states w = (Raise e, w) /\
     generate_tasks w = (Raise (to_status "generate_tasks" e), w)) /\
  (forall pre c post code message,
     cs = pre ++ c :: post ->
     Forall (stale_or_loaded st) pre ->
     PipelineState_load_from_orchestrator_context st c =
       inl (StatusNotOkError code message) ->
     code <> NOT_FOUND ->
     generate_tasks w = (Raise (StatusNotOkError code message), w)).
Proof.
  intros st cs.
  assert (Habort : forall pre c post e,
     cs = pre ++ c :: post ->
     Forall (stale_or_loaded st) pre ->
     PipelineState_load_from_orchestrator_context st c = inl e ->
     (forall msg, e <> StatusNotOkError NOT_FOUND msg) ->
     _get_pipeline_states w = (Raise e, w) /\
     generate_tasks w = (Raise (to_status "generate_tasks" e), w)).
  2:{ split; [|split; [exact Habort|]].
      - intros Hall. unfold _get_pipeline_states. fold st cs.
        apply (scan_loop_ok cs [] w Hall).
      - intros pre c post code message Hcs Hpre Hload Hcode.
        apply (Habort pre c post _ Hcs Hpre Hload).
        intros msg Heq. apply Hcode. congruence. }
  intros pre c post e Hcs Hpre Hload Hne.
  assert (Hscan : _get_pipeline_states w = (Raise e, w)).
  { unfold _get_pipeline_states. fold st cs. rewrite Hcs.
    apply scan_loop_abort; assumption. }
  split; [exact Hscan|].
  apply generate_tasks_scan_raise. rewrite Hscan. reflexivity.
Qed.

(** *** The assertion of the active sweep *)

Lemma for_each_ext {A} (l : list A) (f g : A -> M unit) (w : World) :
  (forall a w0, In a l -> f a w0 = g a w0) ->
  for_each l f w = for_each l g w.
Proof.
  revert w. induction l as [|a l IH]; intros w Hfg; simpl; [reflexivity|].
  unfold bind. rewrite Hfg by (left; reflexivity).
  destruct (g a w) as [[[]| |] w1]; try reflexivity.
  apply IH. intros a0 w0 Hin. apply Hfg. right. assumption.
Qed.

(** C10.  Every pipeline state that the classification of a tick puts in the
    active list has an execution that is NEW or RUNNING, so the assertion of
    [_process_active_pipelines] returns; the tick equals the tick in which the
    loop body has no assertion. *)
Theorem active_assertion_always_holds (w : World) (pss : list PipelineState) :
  _get_pipeline_states w = (Return pss, w) ->
  forall act stp wc,
    _classify pss [] [] w = (Return (act, stp), wc) ->
    (forall ps, In ps act ->
       (last_known_state (execution ps) = NEW \/
        last_known_state (execution ps) = RUNNING) /\
       forall w0, _assert_active (execution ps) w0 = (Return tt, w0)) /\
    generate_tasks w =
      _to_status_not_ok_error "generate_tasks"
        (_process_stop_initiated_pipelines stp ;;;
         for_each act
           (fun ps =>
              (if negb (bool_decide (last_known_state (execution ps) = RUNNING))
               then put_executions [with_last_known_state RUNNING (execution ps)]
               else ret tt) ;;;
              _cancel_generate_enqueue ps)) w.
Proof.
  intros Hscan act stp wc Hclass.
  rewrite classify_spec in Hclass.
  destruct (List.find neither pss) eqn:Hvalid; [discriminate|].
  injection Hclass as <- <- <-.
  assert (Hactive : forall ps, In ps (List.filter only_active pss) ->
            (last_known_state (execution ps) = NEW \/
             last_known_state (execution ps) = RUNNING) /\
            forall w0, _assert_active (execution ps) w0 = (Return tt, w0)).
  { intros ps Hin. apply filter_In in Hin as [_ Hin].
    unfold only_active in Hin. apply andb_true_iff in Hin as [_ Hin].
    unfold is_execution_active in Hin. unfold _assert_active.
    destruct (last_known_state (execution ps)); try discriminate;
      split; auto. }
  split; [exact Hactive|].
  rewrite (generate_tasks_phases w pss Hscan Hvalid).
  unfold _to_status_not_ok_error, bind.
  destruct (_process_stop_initiated_pipelines _ w) as [[[]| |] w1];
    try reflexivity.
  unfold _process_active_pipelines.
  rewrite (for_each_ext _ _
    (fun ps =>
       (if negb (bool_decide (last_known_state (execution ps) = RUNNING))
        then put_executions [with_last_known_state RUNNING (execution ps)]
        else ret tt) ;;;
       _cancel_generate_enqueue ps)); [reflexivity|].
  intros ps w0 Hin. unfold _process_active_pipeline, bind at 1.
  destruct (Hactive ps Hin) as [_ Hassert]. rewrite Hassert. reflexivity.
Qed.

(** *** What a computation adds to the trace *)

Lemma emits_nothing {A} (P : Event -> Prop) (m : M A) :
  (forall w, trace (snd (m w)) = trace w) -> emits P m.
Proof. intros Hm w. exists []. rewrite app_nil_r. split; [apply Hm|constructor]. Qed.

Lemma emits_bind {A B} (P : Event -> Prop) (m : M A) (k : A -> M B) :
  emits P m -> (forall a, emits P (k a)) -> emits P (bind m k).
Proof.
  intros Hm Hk w. unfold bind.
  destruct (Hm w) as (evs & Htr & Hevs).
  destruct (m w) as [[a| |] w1]; simpl in *; try (exists evs; split; assumption).
  destruct (Hk a w1) as (evs' & Htr' & Hevs').
  exists (evs ++ evs'). rewrite Htr', Htr, app_assoc. split; [reflexivity|].
  apply Forall_app; split; assumption.
Qed.

Lemma emits_for_each {A} (P : Event -> Prop) (l : list A) (body : A -> M unit) :
  (forall a, emits P (body a)) -> emits P (for_each l body).
Proof.
  intros Hbody. induction l as [|a l IH]; simpl.
  - apply emits_nothing. reflexivity.
  - apply emits_bind; auto.
Qed.

Lemma emits_enqueue (P : Event -> Prop) (t : Task) :
  P (EvEnqueue t) -> emits P (enqueue t).
Proof. intros HP w. exists [EvEnqueue t]. split; [reflexivity|]. repeat constructor. exact HP. Qed.

Lemma emits_maybe_enqueue (pipeline : Pipeline) (node : PipelineNode) :
  emits not_put (_maybe_enqueue_cancellation_task pipeline node).
Proof.
  intros w. rewrite maybe_enqueue_cases. simpl.
  destruct (is_feasible_node node); simpl.
  2:{ exists []. rewrite app_nil_r. split; [reflexivity|constructor]. }
  destruct (contains_task_id _ _).
  { eexists [_]. split; [reflexivity|]. repeat constructor. }
  destruct (_ =? _)%nat.
  - eexists [_]. split; [reflexivity|]. repeat constructor.
  - exists []. rewrite app_nil_r. split; [reflexivity|constructor].
Qed.

Lemma emits_generate (g : Generator) : emits not_put (generate g).
Proof.
  intros w. exists [EvGenerate g]. split; [|repeat constructor].
  unfold generate, lift_store.
  destruct (match g with
            | SyncPipelineTaskGenerator p => _
            | AsyncPipelineTaskGenerator p i => _
            end _) as [[e|a] st]; reflexivity.
Qed.

Lemma emits_init_generator (pipeline : Pipeline) (stopped : list PipelineNode) :
  emits not_put (_init_generator pipeline stopped).
Proof.
  apply emits_nothing. intros w. unfold _init_generator.
  destruct (execution_mode pipeline); reflexivity.
Qed.

Lemma emits_cancel_generate_enqueue (ps : PipelineState) :
  emits not_put (_cancel_generate_enqueue ps).
Proof.
  unfold _cancel_generate_enqueue.
  apply emits_bind.
  { apply emits_for_each. intros node. apply emits_bind;
      [apply emits_maybe_enqueue|]. intros _. apply emits_nothing. reflexivity. }
  intros _. apply emits_bind; [apply emits_init_generator|].
  intros g. apply emits_bind; [apply emits_generate|].
  intros tasks. apply emits_for_each. intros t. apply emits_enqueue. exact I.
Qed.

(** *** Ticks over a single pipeline *)

Lemma bind_ret_tt (m : M unit) (w : World) : (m ;;; ret tt) w = m w.
Proof. unfold bind, ret. destruct (m w) as [[[]| |] w1]; reflexivity. Qed.

Lemma for_each_single {A} (a : A) (body : A -> M unit) (w : World) :
  for_each [a] body w = body a w.
Proof. simpl. apply bind_ret_tt. Qed.

Lemma decorator_ext {A} (name : string) (m1 m2 : M A) (w : World) :
  m1 w = m2 w ->
  _to_status_not_ok_error name m1 w = _to_status_not_ok_error name m2 w.
Proof. intros Heq. unfold _to_status_not_ok_error. rewrite Heq. reflexivity. Qed.

Lemma generate_tasks_single_active (w : World) (ps : PipelineState) :
  _get_pipeline_states w = (Return [ps], w) ->
  only_active ps = true ->
  generate_tasks w =
    _to_status_not_ok_error "generate_tasks" (_process_active_pipeline ps) w.
Proof.
  intros Hscan Hact.
  assert (Hstop : PipelineState_is_stop_initiated ps = false).
  { unfold only_active in Hact. apply andb_true_iff in Hact as [Hs _].
    apply negb_true_iff. exact Hs. }
  rewrite (generate_tasks_phases w [ps] Hscan).
  2:{ simpl. unfold neither. unfold only_active in Hact.
      rewrite Hstop in *. simpl in *. rewrite Hact. reflexivity. }
  apply decorator_ext. simpl. rewrite Hstop, Hact.
  unfold _process_active_pipelines. apply for_each_single.
Qed.

Lemma stop_initiated_returns (ps : PipelineState) (w : World) :
  fst (_process_stop_initiated_pipeline ps w) = Return tt.
Proof.
  unfold _process_stop_initiated_pipeline, bind.
  destruct (cancel_nodes_sweep (pipeline ps)
              (get_all_pipeline_nodes (pipeline ps)) false w)
    as (flags & w1 & _ & Hrun).
  rewrite Hrun. destruct (negb _); reflexivity.
Qed.

Lemma stop_initiated_all_return (pss : list PipelineState) (w : World) :
  fst (_process_stop_initiated_pipelines pss w) = Return tt.
Proof.
  unfold _process_stop_initiated_pipelines.
  revert w. induction pss as [|ps pss IH]; intros w; simpl; [reflexivity|].
  unfold bind. pose proof (stop_initiated_returns ps w) as Hps.
  destruct (_process_stop_initiated_pipeline ps w) as [r w1]. simpl in Hps.
  subst r. apply IH.
Qed.

Lemma generate_tasks_single_stop_initiated (w : World) (ps : PipelineState) :
  _get_pipeline_states w = (Return [ps], w) ->
  PipelineState_is_stop_initiated ps = true ->
  generate_tasks w = _process_stop_initiated_pipeline ps w.
Proof.
  intros Hscan Hstop.
  rewrite (generate_tasks_phases w [ps] Hscan).
  2:{ simpl. unfold neither. rewrite Hstop. reflexivity. }
  unfold only_active. simpl. rewrite Hstop. simpl.
  unfold _process_stop_initiated_pipelines, _process_active_pipelines.
  unfold _to_status_not_ok_error. rewrite bind_ret_tt, for_each_single.
  pose proof (stop_initiated_returns ps w) as Hret.
  destruct (_process_stop_initiated_pipeline ps w) as [r w1]. simpl in Hret.
  subst r. reflexivity.
Qed.

(** C1.  Processing a stop-initiated pipeline calls
    [_maybe_enqueue_cancellation_task] on every node of the IR, in order
    ([sweep]).  If no call returned true, the execution is written to the store
    with [last_known_state] CANCELED; if some call returned true, the store is
    as it was before the sweep.  A tick over one stop-initiated pipeline is
    exactly this step. *)
Theorem stop_initiated_pipeline_sweep (ps : PipelineState) (w : World) :
  let canceled := with_last_known_state CANCELED (execution ps) in
  (exists flags w1,
     sweep (pipeline ps) (get_all_pipeline_nodes (pipeline ps)) w flags w1 /\
     length flags = length (get_all_pipeline_nodes (pipeline ps)) /\
     mlmd w1 = mlmd w /\
     _process_stop_initiated_pipeline ps w =
       (if existsb id flags then (Return tt, w1)
        else put_executions [canceled] w)) /\
  executions (mlmd (snd (put_executions [canceled] w)))
    !! exec_id (execution ps) = Some canceled /\
  last_known_state canceled = CANCELED /\
  (_get_pipeline_states w = (Return [ps], w) ->
   PipelineState_is_stop_initiated ps = true ->
   generate_tasks w = _process_stop_initiated_pipeline ps w).
Proof.
  intros canceled. split; [|split; [|split]].
  - destruct (cancel_nodes_sweep (pipeline ps)
                (get_all_pipeline_nodes (pipeline ps)) false w)
      as (flags & w1 & Hsweep & Hrun).
    exists flags, w1. split; [assumption|].
    split; [eapply sweep_length; eassumption|].
    split; [eapply sweep_store; eassumption|].
    unfold _process_stop_initiated_pipeline, bind. rewrite Hrun. simpl.
    destruct (existsb id flags) eqn:Hany; simpl; [reflexivity|].
    rewrite (sweep_idle _ _ _ _ _ Hsweep Hany). reflexivity.
  - apply (put_executions_lookup canceled w).
  - reflexivity.
  - apply generate_tasks_single_stop_initiated.
Qed.

(** *** From NEW to RUNNING *)

Lemma process_active_pipeline_step (ps : PipelineState) (w : World) :
  let e := execution ps in
  let running := with_last_known_state RUNNING e in
  let w1 := snd (put_executions [running] w) in
  (last_known_state e = NEW ->
   _process_active_pipeline ps w = _cancel_generate_enqueue ps w1 /\
   executions (mlmd w1) !! exec_id e = Some running /\
   last_known_state running = RUNNING /\
   exists evs,
     trace (snd (_process_active_pipeline ps w)) =
       trace w ++ EvPutExecutions [running] :: evs /\
     Forall not_put evs) /\
  (last_known_state e = RUNNING ->
   _process_active_pipeline ps w = _cancel_generate_enqueue ps w /\
   exists evs,
     trace (snd (_process_active_pipeline ps w)) = trace w ++ evs /\
     Forall not_put evs).
Proof.
  intros e running w1.
  split; intros Hstate.
  - assert (Hrun : _process_active_pipeline ps w = _cancel_generate_enqueue ps w1).
    { unfold _process_active_pipeline, _assert_active, bind. fold e.
      rewrite Hstate. reflexivity. }
    split; [exact Hrun|]. split; [apply (put_executions_lookup running w)|].
    split; [reflexivity|].
    rewrite Hrun.
    destruct (emits_cancel_generate_enqueue ps w1) as (evs & Htr & Hevs).
    exists evs. split; [|exact Hevs].
    rewrite Htr. unfold w1. simpl. rewrite <- app_assoc. reflexivity.
  - assert (Hrun : _process_active_pipeline ps w = _cancel_generate_enqueue ps w).
    { unfold _process_active_pipeline, _assert_active, bind. fold e.
      rewrite Hstate. reflexivity. }
    split; [exact Hrun|]. rewrite Hrun.
    apply emits_cancel_generate_enqueue.
Qed.

(** *** The generator chosen for the execution mode *)

Lemma cancellations_return (pipeline : Pipeline) (stopped : list PipelineNode)
    (w : World) :
  fst (for_each stopped
         (fun node =>
            _ <- _maybe_enqueue_cancellation_task pipeline node ;; ret tt) w)
  = Return tt.
Proof.
  revert w. induction stopped as [|node rest IH]; intros w; simpl;
    [reflexivity|].
  unfold bind at 1. unfold bind at 1.
  destruct (maybe_enqueue_effect pipeline node w) as (b & w1 & Hcall & _).
  rewrite Hcall. simpl. apply IH.
Qed.

(** C8.  After the cancellations for the stop-initiated nodes, a SYNC pipeline
    is handed to the SYNC generator, an ASYNC pipeline to the ASYNC generator
    built with the set of the ids of the nodes whose stop flag is set, and the
    tasks they generate are enqueued; any other execution mode raises
    FAILED_PRECONDITION, and so does a tick over an active pipeline in such a
    mode. *)
Theorem generator_follows_execution_mode (ps : PipelineState) (w : World) :
  let pipeline := pipeline ps in
  let stopped := _get_stop_initiated_nodes ps in
  let w1 :=
    snd (for_each stopped
           (fun node =>
              _ <- _maybe_enqueue_cancellation_task pipeline node ;; ret tt)
           w) in
  (forall node_id,
     node_id ∈ (list_to_set (map node_info_id stopped) : gset string) <->
     exists node,
       In node (get_all_pipeline_nodes pipeline) /\
       node_info_id node = node_id /\
       PipelineState_is_node_stop_initiated ps
         (NodeUid_from_pipeline_node pipeline node) = true) /\
  _cancel_generate_enqueue ps w =
    match execution_mode pipeline with
    | SYNC =>
        (tasks <- generate (SyncPipelineTaskGenerator pipeline) ;;
         for_each tasks enqueue) w1
    | ASYNC =>
        (tasks <- generate
                    (AsyncPipelineTaskGenerator pipeline
                       (list_to_set (map node_info_id stopped))) ;;
         for_each tasks enqueue) w1
    | OtherMode n =>
        (Raise (StatusNotOkError FAILED_PRECONDITION
                  (unsupported_mode_message (OtherMode n))), w1)
    end /\
  (forall n w0,
     execution_mode pipeline = OtherMode n ->
     _get_pipeline_states w0 = (Return [ps], w0) ->
     only_active ps = true ->
     fst (generate_tasks w0) =
       Raise (StatusNotOkError FAILED_PRECONDITION
                (unsupported_mode_message (OtherMode n)))).
Proof.
  intros pipeline stopped w1.
  assert (Hbody : forall w0,
    _cancel_generate_enqueue ps w0 =
      (generator <- _init_generator pipeline stopped ;;
       tasks <- generate generator ;; for_each tasks enqueue)
        (snd (for_each stopped
                (fun node =>
                   _ <- _maybe_enqueue_cancellation_task pipeline node ;;
                   ret tt) w0))).
  { intros w0. unfold _cancel_generate_enqueue. fold pipeline stopped.
    unfold bind at 1.
    pose proof (cancellations_return pipeline stopped w0) as Hret.
    destruct (for_each stopped _ w0) as [r w2]. simpl in *. subst r.
    reflexivity. }
  split; [|split].
  - intros nid. rewrite elem_of_list_to_set, list_elem_of_In, in_map_iff.
    unfold stopped, _get_stop_initiated_nodes. fold pipeline.
    split.
    + intros (node & Hid & Hin). apply filter_In in Hin as [Hin Hstop].
      exists node. auto.
    + intros (node & Hin & Hid & Hstop). exists node. split; [exact Hid|].
      apply filter_In. auto.
  - rewrite Hbody. fold w1. unfold bind at 1, _init_generator.
    destruct (execution_mode pipeline); reflexivity.
  - intros n w0 Hmode Hscan Hact.
    rewrite (generate_tasks_single_active w0 ps Hscan Hact).
    unfold _to_status_not_ok_error, _process_active_pipeline, bind at 1.
    assert (Hassert : _assert_active (execution ps) w0 = (Return tt, w0)).
    { unfold only_active in Hact. apply andb_true_iff in Hact as [_ Ha].
      unfold is_execution_active in Ha. unfold _assert_active.
      destruct (last_known_state (execution ps)); try discriminate;
        reflexivity. }
    rewrite Hassert. unfold bind at 1.
    destruct (negb (bool_decide (last_known_state (execution ps) = RUNNING)));
      unfold put_executions, ret; rewrite Hbody;
      unfold bind at 1, _init_generator; fold pipeline;
      rewrite Hmode; reflexivity.
Qed.

(** *** Errors of the public operations *)

Lemma decorator_spec {A} (name : string) (fn : M A) (w : World) :
  _to_status_not_ok_error name fn w =
    match fn w with
    | (Raise e, w') => (Raise (to_status name e), w')
    | other => other
    end.
Proof.
  unfold _to_status_not_ok_error.
  destruct (fn w) as [[a|e|] w']; try reflexivity. destruct e; reflexivity.
Qed.

Lemma decorator_structured {A} (name : string) (fn : M A) (w : World) :
  match fst (_to_status_not_ok_error name fn w) with
  | Raise (PyException _ _) => False
  | _ => True
  end.
Proof.
  rewrite decorator_spec. destruct (fn w) as [[a|e|] w']; simpl; auto.
  destruct e; exact I.
Qed.

Lemma initiate_pipeline_start_new_raises (pipeline : Pipeline) (w : World)
    (e : exn) (st' : Store) :
  PipelineState_new pipeline (mlmd w) = (inl e, st') ->
  initiate_pipeline_start pipeline w =
    (Raise (to_status "initiate_pipeline_start" e), set_mlmd st' w).
Proof.
  intros Hnew. unfold initiate_pipeline_start. apply decorator_raise.
  unfold _pipeline_ops_lock, with_lock, initiate_pipeline_start_body, bind,
    with_pipeline_state, lift_store. simpl. rewrite Hnew. simpl.
  destruct w; reflexivity.
Qed.

Lemma load_raises_in_block {A} (uid : PipelineUid) (w : World) (e : exn)
    (body : PipelineState -> M (PipelineState * A)) :
  PipelineState_load uid (mlmd w) = inl e ->
  with_lock (with_pipeline_state (read_store (PipelineState_load uid)) body) w
  = (Raise e, w).
Proof.
  intros Hload. unfold with_lock, with_pipeline_state, read_store. simpl.
  rewrite Hload. simpl. destruct w; reflexivity.
Qed.

Lemma with_lock_bind_raise {A B} (m : M A) (k : A -> M B) (w w' : World)
    (e : exn) :
  with_lock m w = (Raise e, w') ->
  with_lock (bind m k) w = (Raise e, w').
Proof.
  unfold with_lock, bind. intros Hm.
  destruct (m _) as [[a|e0|] w1]; try discriminate.
  injection Hm as -> <-. reflexivity.
Qed.

Lemma stop_pipeline_load_raises (fuel : nat) (uid : PipelineUid) (timeout : Q)
    (w : World) (e : exn) :
  PipelineState_load uid (mlmd w) = inl e ->
  stop_pipeline fuel uid timeout w = (Raise (to_status "stop_pipeline" e), w).
Proof.
  intros Hload. unfold stop_pipeline. apply decorator_raise.
  unfold stop_pipeline_body, bind at 1.
  rewrite (load_raises_in_block uid w e _ Hload). reflexivity.
Qed.

Lemma initiate_node_start_load_raises (node_uid : NodeUid) (w : World) (e : exn) :
  PipelineState_load (pipeline_uid_of node_uid) (mlmd w) = inl e ->
  initiate_node_start node_uid w =
    (Raise (to_status "initiate_node_start" e), w).
Proof.
  intros Hload. unfold initiate_node_start. apply decorator_raise.
  unfold _pipeline_ops_lock, initiate_node_start_body.
  apply with_lock_bind_raise. apply load_raises_in_block. exact Hload.
Qed.

Lemma stop_node_load_raises (fuel : nat) (node_uid : NodeUid) (timeout : Q)
    (w : World) (e : exn) :
  PipelineState_load (pipeline_uid_of node_uid) (mlmd w) = inl e ->
  stop_node fuel node_uid timeout w = (Raise (to_status "stop_node" e), w).
Proof.
  intros Hload. unfold stop_node. apply decorator_raise.
  unfold stop_node_body, bind at 1, _stop_node_locked.
  erewrite with_lock_bind_raise; [reflexivity|].
  apply load_raises_in_block. exact Hload.
Qed.

(** C9.  Each of the five public operations is its body under
    [_to_status_not_ok_error]: a structured error that the body raises is
    raised unchanged, any other exception becomes a structured error of code
    UNKNOWN whose message ends with the message of the exception.  So it is
    for an error raised by the lowest layer: by [PipelineState.new], by
    [PipelineState.load], or by the scan. *)
Theorem public_operations_raise_status_errors :
  (forall (name : string) (code : Code) (message : string),
     to_status name (StatusNotOkError code message) =
       StatusNotOkError code message) /\
  (forall (name cls str_e : string),
     to_status name (PyException cls str_e) =
       StatusNotOkError UNKNOWN ("`" +:+ name +:+ "` error: " +:+ str_e)) /\
  (forall pipeline w,
     initiate_pipeline_start pipeline w =
       match _pipeline_ops_lock (initiate_pipeline_start_body pipeline) w with
       | (Raise e, w') => (Raise (to_status "initiate_pipeline_start" e), w')
       | other => other
       end) /\
  (forall fuel uid timeout w,
     stop_pipeline fuel uid timeout w =
       match stop_pipeline_body fuel uid timeout w with
       | (Raise e, w') => (Raise (to_status "stop_pipeline" e), w')
       | other => other
       end) /\
  (forall node_uid w,
     initiate_node_start node_uid w =
       match _pipeline_ops_lock (initiate_node_start_body node_uid) w with
       | (Raise e, w') => (Raise (to_status "initiate_node_start" e), w')
       | other => other
       end) /\
  (forall fuel node_uid timeout w,
     stop_node fuel node_uid timeout w =
       match stop_node_body fuel node_uid timeout w with
       | (Raise e, w') => (Raise (to_status "stop_node" e), w')
       | other => other
       end) /\
  (forall w,
     generate_tasks w =
       match _pipeline_ops_lock generate_tasks_body w with
       | (Raise e, w') => (Raise (to_status "generate_tasks" e), w')
       | other => other
       end) /\
  (* an error of the lowest layer, seen through each operation *)
  (forall pipeline w e st',
     PipelineState_new pipeline (mlmd w) = (inl e, st') ->
     fst (initiate_pipeline_start pipeline w) =
       Raise (to_status "initiate_pipeline_start" e)) /\
  (forall fuel uid timeout w e,
     PipelineState_load uid (mlmd w) = inl e ->
     fst (stop_pipeline fuel uid timeout w) =
       Raise (to_status "stop_pipeline" e)) /\
  (forall node_uid w e,
     PipelineState_load (pipeline_uid_of node_uid) (mlmd w) = inl e ->
     fst (initiate_node_start node_uid w) =
       Raise (to_status "initiate_node_start" e)) /\
  (forall fuel node_uid timeout w e,
     PipelineState_load (pipeline_uid_of node_uid) (mlmd w) = inl e ->
     fst (stop_node fuel node_uid timeout w) =
       Raise (to_status "stop_node" e)) /\
  (forall w e,
     fst (_get_pipeline_states w) = Raise e ->
     fst (generate_tasks w) = Raise (to_status "generate_tasks" e)).
Proof.
  split; [reflexivity|]. split; [reflexivity|].
  split; [intros; apply decorator_spec|].
  split; [intros; apply decorator_spec|].
  split; [intros; apply decorator_spec|].
  split; [intros; apply decorator_spec|].
  split; [intros; apply decorator_spec|].
  split.
  { intros pipeline w e st' Hnew.
    rewrite (initiate_pipeline_start_new_raises _ _ _ _ Hnew). reflexivity. }
  split.
  { intros fuel uid timeout w e Hload.
    rewrite (stop_pipeline_load_raises _ _ _ _ _ Hload). reflexivity. }
  split.
  { intros node_uid w e Hload.
    rewrite (initiate_node_start_load_raises _ _ _ Hload). reflexivity. }
  split.
  { intros fuel node_uid timeout w e Hload.
    rewrite (stop_node_load_raises _ _ _ _ _ Hload). reflexivity. }
  intros w e Hscan. rewrite (generate_tasks_scan_raise _ _ Hscan). reflexivity.
Qed.

(** *** Stopping a node *)

Lemma stop_node_locked_spec (node_uid : NodeUid) (w : World) (ps : PipelineState) :
  PipelineState_load (pipeline_uid_of node_uid) (mlmd w) = inr ps ->
  _stop_node_locked node_uid w =
    match List.filter
            (fun n => bool_decide (node_info_id n = node_id node_uid))
            (get_all_pipeline_nodes (pipeline ps)) with
    | [node] =>
        match PipelineState_initiate_node_stop node_uid ps with
        | inr ps' =>
            let w1 := set_mlmd (PipelineState_exit ps' (mlmd w)) w in
            match List.filter is_execution_active
                    (get_executions (mlmd w1) node) with
            | [] => (Return None, w1)
            | [e] => (Return (Some [e]), w1)
            | _ =>
                (Raise (StatusNotOkError INTERNAL
                          (multiple_active_message node_uid)), w1)
            end
        | inl e => (Raise e, set_mlmd (PipelineState_exit ps (mlmd w)) w)
        end
    | _ =>
        (Raise (StatusNotOkError INTERNAL (node_not_found_message node_uid)),
         set_mlmd (PipelineState_exit ps (mlmd w)) w)
    end.
Proof.
  intros Hload.
  unfold _stop_node_locked, with_lock, bind at 1, with_pipeline_state,
    read_store.
  simpl. rewrite Hload. simpl.
  destruct (List.filter _ (get_all_pipeline_nodes (pipeline ps)))
    as [|node [|node' rest]]; simpl.
  - destruct w; reflexivity.
  - unfold bind at 1. simpl.
    destruct (PipelineState_initiate_node_stop node_uid ps) as [e|ps']; simpl.
    + destruct w; reflexivity.
    + unfold bind. simpl.
      destruct (List.filter is_execution_active _) as [|e [|e' rest]]; simpl;
        destruct w; reflexivity.
  - destruct w; reflexivity.
Qed.

Lemma decorator_idempotent {A} (outer inner : string) (fn : M A) (w : World) :
  _to_status_not_ok_error outer (_to_status_not_ok_error inner fn) w =
  _to_status_not_ok_error inner fn w.
Proof.
  rewrite (decorator_spec outer), (decorator_spec inner).
  destruct (fn w) as [[a|e|] w']; try reflexivity. destruct e; reflexivity.
Qed.

(** C5.  Given that the pipeline state loads: [stop_node] fails with INTERNAL
    unless exactly one node of the IR bears the node id.  Otherwise, after
    [initiate_node_stop] and the write-back, it reads the executions of the
    node: with none active it returns at once, the clock and the trace
    untouched; with more than one active it fails with INTERNAL; with exactly
    one it behaves as [_wait_for_inactivation] on that execution, started in a
    world where the lock is back to its level at the call. *)
Theorem stop_node_cases (fuel : nat) (node_uid : NodeUid) (timeout_secs : Q)
    (w : World) (ps : PipelineState) :
  PipelineState_load (pipeline_uid_of node_uid) (mlmd w) = inr ps ->
  match List.filter
          (fun n => bool_decide (node_info_id n = node_id node_uid))
          (get_all_pipeline_nodes (pipeline ps)) with
  | [node] =>
      match PipelineState_initiate_node_stop node_uid ps with
      | inr ps' =>
          let w1 := set_mlmd (PipelineState_exit ps' (mlmd w)) w in
          lock_count w1 = lock_count w /\
          clock w1 = clock w /\
          trace w1 = trace w /\
          match List.filter is_execution_active
                  (get_executions (mlmd w1) node) with
          | [] => stop_node fuel node_uid timeout_secs w = (Return tt, w1)
          | [e] =>
              stop_node fuel node_uid timeout_secs w =
                _wait_for_inactivation fuel e timeout_secs w1
          | _ =>
              stop_node fuel node_uid timeout_secs w =
                (Raise (StatusNotOkError INTERNAL
                          (multiple_active_message node_uid)), w1)
          end
      | inl e =>
          fst (stop_node fuel node_uid timeout_secs w) =
            Raise (to_status "stop_node" e)
      end
  | _ =>
      fst (stop_node fuel node_uid timeout_secs w) =
        Raise (StatusNotOkError INTERNAL (node_not_found_message node_uid))
  end.
Proof.
  intros Hload.
  pose proof (stop_node_locked_spec node_uid w ps Hload) as Hlocked.
  unfold stop_node. rewrite decorator_spec.
  replace (stop_node_body fuel node_uid timeout_secs w) with
    (match _stop_node_locked node_uid w with
     | (Return None, w1) => (Return tt, w1)
     | (Return (Some active_executions), w1) =>
         (execution <- first_item active_executions ;;
          _wait_for_inactivation fuel execution timeout_secs) w1
     | (Raise e, w1) => (Raise e, w1)
     | (OutOfFuel, w1) => (OutOfFuel, w1)
     end).
  2:{ clear Hlocked. unfold stop_node_body, bind.
      destruct (_stop_node_locked node_uid w) as [[[l|]|e|] w1]; reflexivity. }
  destruct (List.filter _ (get_all_pipeline_nodes (pipeline ps)))
    as [|node [|node' rest]].
  - rewrite Hlocked. reflexivity.
  - destruct (PipelineState_initiate_node_stop node_uid ps) as [e|ps'].
    + rewrite Hlocked. reflexivity.
    + cbv zeta in Hlocked |- *.
      split; [reflexivity|]. split; [reflexivity|]. split; [reflexivity|].
      destruct (List.filter is_execution_active _) as [|e [|e' rest]];
        rewrite Hlocked; try reflexivity.
      change ((execution <- first_item [e] ;;
               _wait_for_inactivation fuel execution timeout_secs)
                (set_mlmd (PipelineState_exit ps' (mlmd w)) w))
        with (_wait_for_inactivation fuel e timeout_secs
                (set_mlmd (PipelineState_exit ps' (mlmd w)) w)).
      rewrite <- (decorator_spec "stop_node").
      apply (decorator_idempotent "stop_node" "_wait_for_inactivation").
  - rewrite Hlocked. reflexivity.
Qed.

(** *** The loop over the active pipelines *)

Lemma for_each_app {A} (l1 l2 : list A) (body : A -> M unit) (w : World) :
  for_each (l1 ++ l2) body w = (for_each l1 body ;;; for_each l2 body) w.
Proof.
  revert w. induction l1 as [|a l1 IH]; intros w; [reflexivity|].
  simpl. unfold bind.
  destruct (body a w) as [[[]| |] w1]; try reflexivity.
  rewrite IH. reflexivity.
Qed.

Lemma ends_returns {A} (m : M A) :
  (forall w, exists a w', m w = (Return a, w')) -> ends m.
Proof. intros Hm w. destruct (Hm w) as (a & w' & ->). discriminate. Qed.

Lemma ends_bind {A B} (m : M A) (k : A -> M B) :
  ends m -> (forall a, ends (k a)) -> ends (bind m k).
Proof.
  intros Hm Hk w. unfold bind. specialize (Hm w).
  destruct (m w) as [[a|e|] w1]; simpl in *;
    [apply Hk|discriminate|contradiction].
Qed.

Lemma ends_for_each {A} (l : list A) (body : A -> M unit) :
  (forall a, ends (body a)) -> ends (for_each l body).
Proof.
  intros Hbody. induction l as [|a l IH]; simpl.
  - intros w. discriminate.
  - apply ends_bind; auto.
Qed.

Lemma ends_cancel_generate_enqueue (ps : PipelineState) :
  ends (_cancel_generate_enqueue ps).
Proof.
  unfold _cancel_generate_enqueue. apply ends_bind.
  { apply ends_for_each. intros node. apply ends_bind.
    - apply ends_returns. intros w.
      destruct (maybe_enqueue_effect (pipeline ps) node w)
        as (b & w1 & Hcall & _).
      eauto.
    - intros b w. discriminate. }
  intros _. apply ends_bind.
  { intros w. unfold _init_generator.
    destruct (execution_mode (pipeline ps)); discriminate. }
  intros g. apply ends_bind.
  { intros w. unfold generate, lift_store.
    destruct (match g with
              | SyncPipelineTaskGenerator p => _
              | AsyncPipelineTaskGenerator p i => _
              end _) as [[e|a] st]; discriminate. }
  intros tasks. apply ends_for_each. intros t w. discriminate.
Qed.

Lemma ends_active_pipeline (ps : PipelineState) :
  ends (_process_active_pipeline ps).
Proof.
  unfold _process_active_pipeline. apply ends_bind.
  { intros w. unfold _assert_active, assert_. destruct (_ || _); discriminate. }
  intros _. apply ends_bind.
  { intros w. destruct (negb _); discriminate. }
  intros _. apply ends_cancel_generate_enqueue.
Qed.

Lemma ends_earlier_pipelines (stp act : list PipelineState) :
  ends (_process_stop_initiated_pipelines stp ;;; _process_active_pipelines act).
Proof.
  apply ends_bind.
  - intros w. rewrite stop_initiated_all_return. discriminate.
  - intros _. apply ends_for_each. apply ends_active_pipeline.
Qed.

Lemma active_loop_split (stp before rest : list PipelineState)
    (ps : PipelineState) (w : World) :
  (_process_stop_initiated_pipelines stp ;;;
   _process_active_pipelines (before ++ ps :: rest)) w =
    match (_process_stop_initiated_pipelines stp ;;;
           _process_active_pipelines before) w with
    | (Return _, w0) =>
        (_process_active_pipeline ps ;;; _process_active_pipelines rest) w0
    | (Raise e, w') => (Raise e, w')
    | (OutOfFuel, w') => (OutOfFuel, w')
    end.
Proof.
  unfold _process_active_pipelines, bind.
  destruct (_process_stop_initiated_pipelines stp w) as [[[]| |] w1];
    try reflexivity.
  rewrite for_each_app. unfold bind.
  destruct (for_each before _process_active_pipeline w1) as [[[]| |] w2];
    reflexivity.
Qed.

(** C4, as amended.  A tick that has classified its pipeline states goes
    through the stop-initiated ones and then through the active ones in the
    order of the scan, and ends at the first error.  Take an active pipeline
    state [ps].  If what comes before it in the tick returns, the tick goes on
    with [ps]: if its execution is NEW, the first thing the tick then does is
    to write the execution with [last_known_state] RUNNING to the store, and
    the cancellations, the generator and the enqueues of [ps] run in the world
    that results and write no execution; if it is RUNNING, no execution is
    written for [ps].  If what comes before [ps] raises, the tick ends with
    that error in the world in which it was raised: [ps] is not processed. *)
Theorem new_pipeline_is_set_running_first (w : World)
    (pss before rest : list PipelineState) (ps : PipelineState) :
  _get_pipeline_states w = (Return pss, w) ->
  List.find neither pss = None ->
  List.filter only_active pss = before ++ ps :: rest ->
  let e := execution ps in
  let running := with_last_known_state RUNNING e in
  let earlier :=
    (_process_stop_initiated_pipelines
       (List.filter PipelineState_is_stop_initiated pss) ;;;
     _process_active_pipelines before) in
  (last_known_state e = NEW \/ last_known_state e = RUNNING) /\
  (forall w0,
     earlier w = (Return tt, w0) ->
     let w1 := snd (put_executions [running] w0) in
     generate_tasks w =
       _to_status_not_ok_error "generate_tasks"
         (_process_active_pipeline ps ;;; _process_active_pipelines rest) w0 /\
     (last_known_state e = NEW ->
      _process_active_pipeline ps w0 = _cancel_generate_enqueue ps w1 /\
      executions (mlmd w1) !! exec_id e = Some running /\
      last_known_state running = RUNNING /\
      exists evs,
        trace (snd (_process_active_pipeline ps w0)) =
          trace w0 ++ EvPutExecutions [running] :: evs /\
        Forall not_put evs) /\
     (last_known_state e = RUNNING ->
      _process_active_pipeline ps w0 = _cancel_generate_enqueue ps w0 /\
      exists evs,
        trace (snd (_process_active_pipeline ps w0)) = trace w0 ++ evs /\
        Forall not_put evs)) /\
  (forall err w',
     earlier w = (Raise err, w') ->
     generate_tasks w = (Raise (to_status "generate_tasks" err), w')) /\
  fst (earlier w) <> OutOfFuel.
Proof.
  intros Hscan Hvalid Hact e running earlier.
  pose proof (generate_tasks_phases w pss Hscan Hvalid) as Hphases.
  rewrite Hact in Hphases.
  rewrite decorator_spec, active_loop_split in Hphases. fold earlier in Hphases.
  split; [|split; [|split]].
  - assert (Hin : In ps (List.filter only_active pss))
      by (rewrite Hact; apply in_or_app; right; left; reflexivity).
    apply filter_In in Hin as [_ Hactive].
    unfold only_active in Hactive. apply andb_true_iff in Hactive as [_ Hactive].
    unfold is_execution_active in Hactive. fold e in Hactive.
    destruct (last_known_state e); try discriminate; auto.
  - intros w0 Hearlier w1. rewrite Hearlier in Hphases.
    split; [rewrite decorator_spec; exact Hphases|].
    apply (process_active_pipeline_step ps w0).
  - intros err w' Hearlier. rewrite Hearlier in Hphases. exact Hphases.
  - apply ends_earlier_pipelines.
Qed.

(** *** Waiting for inactivation *)

Lemma wait_loop_step (k : nat) (exe : Execution) (timeout pi end_time : Q)
    (w : World) :
  _wait_loop (S k) exe timeout pi end_time w =
    let now := clock w in
    let w1 := advance_clock (elapse now) w in
    if Qlt_le_dec 0 (float_sub end_time now) then
      let found := store_get_executions_by_id [exec_id exe] (mlmd w1) in
      let w2 := log (EvGetExecutionsById [exec_id exe] found) w1 in
      match found with
      | [] => (Raise IndexError, w2)
      | updated :: _ =>
          if negb (is_execution_active updated) then (Return tt, w2)
          else
            let now' := clock w2 in
            let w3 := advance_clock (elapse now') w2 in
            let d := Qmax 0 (Qmin pi (float_sub end_time now')) in
            let w4 :=
              advance_clock (d + oversleep (clock w3) d) (log (EvSleep d) w3) in
            _wait_loop k exe timeout pi end_time w4
      end
    else
      (Raise (StatusNotOkError DEADLINE_EXCEEDED (deadline_message timeout)),
       w1).
Proof.
  cbn [_wait_loop].
  unfold bind, time_time, get_executions_by_id, time_sleep. cbv beta zeta.
  destruct (Qlt_le_dec 0 (float_sub end_time (clock w))); [|reflexivity].
  destruct (store_get_executions_by_id [exec_id exe]
              (mlmd (advance_clock (elapse (clock w)) w)))
    as [|updated rest]; [reflexivity|].
  cbn [first_item ret].
  destruct (is_execution_active updated); reflexivity.
Qed.

Lemma wait_loop_outcome (fuel : nat) (exe : Execution)
    (timeout pi end_time : Q) (w : World) :
  exists evs,
    trace (snd (_wait_loop fuel exe timeout pi end_time w)) = trace w ++ evs /\
    match fst (_wait_loop fuel exe timeout pi end_time w) with
    | Return _ =>
        exists before poll,
          evs = before ++ [poll] /\ saw_inactive poll /\
          Forall saw_active_if_poll before
    | Raise e =>
        (e = StatusNotOkError DEADLINE_EXCEEDED (deadline_message timeout) /\
         Forall saw_active_if_poll evs) \/
        (e = IndexError /\
         exists before poll,
           evs = before ++ [poll] /\ saw_nothing poll /\
           Forall saw_active_if_poll before)
    | OutOfFuel => Forall saw_active_if_poll evs
    end.
Proof.
  revert w. induction fuel as [|k IH]; intros w.
  { exists []. simpl. rewrite app_nil_r. split; [reflexivity|constructor]. }
  rewrite wait_loop_step. cbv zeta.
  destruct (Qlt_le_dec 0 (float_sub end_time (clock w))) as [Hopen|Hpast].
  2:{ exists []. simpl. rewrite app_nil_r. split; [reflexivity|].
      left. split; [reflexivity|constructor]. }
  destruct (store_get_executions_by_id _ _) as [|updated rest] eqn:Hfound.
  { eexists [_]. simpl. split; [reflexivity|]. right. split; [reflexivity|].
    exists [], (EvGetExecutionsById [exec_id exe] []).
    repeat split. constructor. }
  destruct (is_execution_active updated) eqn:Hactive; simpl negb; cbv iota.
  2:{ eexists [_]. simpl. split; [reflexivity|].
      exists [], (EvGetExecutionsById [exec_id exe] (updated :: rest)).
      repeat split; [exact Hactive|constructor]. }
  match goal with |- context [_wait_loop k exe timeout pi end_time ?w4] =>
    destruct (IH w4) as (evs & Htrace & Hout);
    set (wnext := w4) in *
  end.
  exists (EvGetExecutionsById [exec_id exe] (updated :: rest)
          :: EvSleep (Qmax 0 (Qmin pi (float_sub end_time
               (clock (log (EvGetExecutionsById [exec_id exe] (updated :: rest))
                          (advance_clock (elapse (clock w)) w))))))
          :: evs).
  split.
  { rewrite Htrace. unfold wnext. simpl. rewrite <- !app_assoc. reflexivity. }
  assert (Hhead : saw_active_if_poll
                    (EvGetExecutionsById [exec_id exe] (updated :: rest)))
    by exact Hactive.
  destruct (fst (_wait_loop k exe timeout pi end_time wnext)) as [[]|e|].
  - destruct Hout as (before & poll & -> & Hpoll & Hbefore).
    eexists (_ :: _ :: before), poll. split; [reflexivity|].
    split; [exact Hpoll|]. repeat constructor; assumption.
  - destruct Hout as [[-> Hall]|(-> & before & poll & -> & Hpoll & Hbefore)].
    + left. split; [reflexivity|]. repeat constructor; assumption.
    + right. split; [reflexivity|].
      eexists (_ :: _ :: before), poll. split; [reflexivity|].
      split; [exact Hpoll|]. repeat constructor; assumption.
  - repeat constructor; assumption.
Qed.

Lemma exact_differences_sign : exact_differences -> difference_sign.
Proof.
  intros Hexact a b. pose proof (Hexact a b) as Hab. split; intros H; lra.
Qed.

Lemma wait_loop_expired (fuel : nat) (exe : Execution)
    (timeout pi end_time : Q) (w : World) :
  difference_sign ->
  (end_time <= clock w)%Q ->
  trace (snd (_wait_loop fuel exe timeout pi end_time w)) = trace w /\
  (forall k, fuel = S k ->
     fst (_wait_loop fuel exe timeout pi end_time w) =
       Raise (StatusNotOkError DEADLINE_EXCEEDED (deadline_message timeout))).
Proof.
  intros Hsign Hpast. destruct fuel as [|k].
  - split; [reflexivity|discriminate].
  - rewrite wait_loop_step. cbv zeta.
    destruct (Qlt_le_dec 0 (float_sub end_time (clock w))) as [Hopen|_].
    { apply (proj1 (Hsign _ _)) in Hopen. lra. }
    split; [reflexivity|]. intros; reflexivity.
Qed.

Lemma sleep_bounds (pi x : Q) :
  (0 <= Qmax 0 (Qmin pi x))%Q /\
  (Qmax 0 (Qmin pi x) <= Qmax 0 pi)%Q /\
  (x <= Qmax 0 (Qmin pi x) \/ Qmax 0 (Qmin pi x) == Qmax 0 pi)%Q.
Proof.
  destruct (Q.min_spec pi x) as [[Hm1 Hm2]|[Hm1 Hm2]];
    destruct (Q.max_spec 0 (Qmin pi x)) as [[Hx1 Hx2]|[Hx1 Hx2]];
    destruct (Q.max_spec 0 pi) as [[Hp1 Hp2]|[Hp1 Hp2]];
    repeat split; try lra; (left; lra) || (right; lra).
Qed.

Lemma wait_loop_bounded (fuel : nat) (exe : Execution)
    (timeout pi end_time : Q) (w : World) :
  exists evs,
    trace (snd (_wait_loop fuel exe timeout pi end_time w)) = trace w ++ evs /\
    Forall (sleep_within (Qmax 0 pi)) evs.
Proof.
  revert w. induction fuel as [|k IH]; intros w.
  { exists []. simpl. rewrite app_nil_r. split; [reflexivity|constructor]. }
  rewrite wait_loop_step. cbv zeta.
  destruct (Qlt_le_dec 0 (float_sub end_time (clock w))) as [Hopen|Hpast].
  2:{ exists []. simpl. rewrite app_nil_r. split; [reflexivity|constructor]. }
  destruct (store_get_executions_by_id _ _) as [|updated rest] eqn:Hfound.
  { eexists [_]. simpl. split; [reflexivity|]. repeat constructor. }
  destruct (is_execution_active updated) eqn:Hactive; simpl negb; cbv iota.
  2:{ eexists [_]. simpl. split; [reflexivity|]. repeat constructor. }
  match goal with |- context [_wait_loop k exe timeout pi end_time ?w4] =>
    set (wnext := w4) in *
  end.
  destruct (IH wnext) as (evs & Htrace & Hsleeps).
  set (now' := clock (log (EvGetExecutionsById [exec_id exe] (updated :: rest))
                        (advance_clock (elapse (clock w)) w))) in *.
  exists (EvGetExecutionsById [exec_id exe] (updated :: rest)
          :: EvSleep (Qmax 0 (Qmin pi (float_sub end_time now'))) :: evs).
  split.
  { rewrite Htrace. unfold wnext. simpl. rewrite <- !app_assoc. reflexivity. }
  destruct (sleep_bounds pi (float_sub end_time now')) as (Hd0 & Hdpi & _).
  constructor; [exact I|]. constructor; [split; assumption|exact Hsleeps].
Qed.

Lemma wait_loop_sleeps (fuel : nat) (exe : Execution)
    (timeout pi end_time : Q) (w : World) :
  honest_clock -> exact_differences ->
  exists evs,
    trace (snd (_wait_loop fuel exe timeout pi end_time w)) = trace w ++ evs /\
    polling_intervals (Qmax 0 pi) evs.
Proof.
  intros [Helapse Hover] Hexact. revert w.
  induction fuel as [|k IH]; intros w.
  { exists []. simpl. rewrite app_nil_r. split; [reflexivity|exact I]. }
  rewrite wait_loop_step. cbv zeta.
  destruct (Qlt_le_dec 0 (float_sub end_time (clock w))) as [Hopen|Hpast].
  2:{ exists []. simpl. rewrite app_nil_r. split; [reflexivity|exact I]. }
  destruct (store_get_executions_by_id _ _) as [|updated rest] eqn:Hfound.
  { eexists [_]. simpl. split; [reflexivity|exact I]. }
  destruct (is_execution_active updated) eqn:Hactive; simpl negb; cbv iota.
  2:{ eexists [_]. simpl. split; [reflexivity|exact I]. }
  match goal with |- context [_wait_loop k exe timeout pi end_time ?w4] =>
    set (wnext := w4) in *
  end.
  destruct (IH wnext) as (evs & Htrace & Hsleeps).
  set (now' := clock (log (EvGetExecutionsById [exec_id exe] (updated :: rest))
                        (advance_clock (elapse (clock w)) w))) in *.
  exists (EvGetExecutionsById [exec_id exe] (updated :: rest)
          :: EvSleep (Qmax 0 (Qmin pi (float_sub end_time now'))) :: evs).
  split.
  { rewrite Htrace. unfold wnext. simpl. rewrite <- !app_assoc. reflexivity. }
  destruct (sleep_bounds pi (float_sub end_time now')) as (Hd0 & Hdpi & Hd).
  simpl. split; [exact Hd0|]. split; [exact Hdpi|]. split; [|exact Hsleeps].
  intros Hpoll. destruct Hd as [Hd|Hd]; [|exact Hd]. exfalso.
  assert (Hexp : (end_time <= clock wnext)%Q).
  { unfold wnext. simpl. change (clock w + elapse (clock w))%Q with now'.
    pose proof (Helapse now') as He.
    pose proof (Hover (now' + elapse now')%Q
                  (Qmax 0 (Qmin pi (float_sub end_time now')))) as Ho.
    pose proof (Hexact end_time now') as Hx.
    lra. }
  destruct (wait_loop_expired k exe timeout pi end_time wnext
              (exact_differences_sign Hexact) Hexp) as [Hquiet _].
  rewrite Hquiet in Htrace.
  rewrite <- (app_nil_r (trace wnext)) in Htrace at 1.
  apply app_inv_head in Htrace. subst evs. inversion Hpoll.
Qed.

Lemma wait_loop_finds_record (fuel : nat) (exe : Execution)
    (timeout pi end_time : Q) (w : World) :
  keeps_record (exec_id exe) ->
  is_Some (executions (mlmd w) !! exec_id exe) ->
  fst (_wait_loop fuel exe timeout pi end_time w) <> Raise IndexError.
Proof.
  intros Hkeep. revert w. induction fuel as [|k IH]; intros w Hhere.
  { discriminate. }
  rewrite wait_loop_step. cbv zeta.
  destruct (Qlt_le_dec 0 (float_sub end_time (clock w))) as [Hopen|Hpast];
    [|discriminate].
  destruct (store_get_executions_by_id _ _) as [|updated rest] eqn:Hfound.
  { exfalso. unfold store_get_executions_by_id in Hfound. simpl in Hfound.
    destruct (Hkeep (clock w) (clock w + elapse (clock w))%Q (mlmd w) Hhere)
      as [y Hy].
    rewrite Hy in Hfound. discriminate. }
  destruct (is_execution_active updated); simpl negb; cbv iota;
    [|discriminate].
  apply IH. simpl. repeat apply Hkeep. exact Hhere.
Qed.

Lemma wait_loop_fuel (n : nat) (exe : Execution) (timeout pi end_time : Q) :
  honest_clock -> exact_differences -> (0 < pi)%Q ->
  forall (w : World) (fuel : nat),
    (end_time - clock w <= inject_Z (Z.of_nat n) * pi)%Q ->
    (n < fuel)%nat ->
    fst (_wait_loop fuel exe timeout pi end_time w) <> OutOfFuel.
Proof.
  intros [Helapse Hover] Hexact Hpi.
  induction n as [|n IH]; intros w fuel Hleft Hfuel.
  - destruct fuel as [|k]; [lia|]. rewrite wait_loop_step. cbv zeta.
    change (inject_Z (Z.of_nat 0)) with 0%Q in Hleft.
    pose proof (Hexact end_time (clock w)) as Hx.
    destruct (Qlt_le_dec 0 (float_sub end_time (clock w))) as [Hopen|Hpast];
      [lra|discriminate].
  - destruct fuel as [|k]; [lia|]. rewrite wait_loop_step. cbv zeta.
    destruct (Qlt_le_dec 0 (float_sub end_time (clock w))) as [Hopen|Hpast];
      [|discriminate].
    destruct (store_get_executions_by_id _ _) as [|updated rest];
      [discriminate|].
    destruct (is_execution_active updated); simpl negb; cbv iota;
      [|discriminate].
    apply IH; [|lia].
    set (now' := clock (log (EvGetExecutionsById [exec_id exe] (updated :: rest))
                          (advance_clock (elapse (clock w)) w))).
    assert (Hnow' : (now' == clock w + elapse (clock w))%Q) by reflexivity.
    simpl. change (clock w + elapse (clock w))%Q with now'.
    pose proof (Helapse (clock w)) as He0.
    pose proof (Helapse now') as He.
    pose proof (Hover (now' + elapse now')%Q
                  (Qmax 0 (Qmin pi (float_sub end_time now')))) as Ho.
    pose proof (Hexact end_time now') as Hx.
    destruct (sleep_bounds pi (float_sub end_time now')) as (Hd0 & Hdpi & Hd).
    destruct (Q.max_spec 0 pi) as [[Hp1 Hp2]|[Hp1 Hp2]]; [|lra].
    rewrite Nat2Z.inj_succ, <- Z.add_1_r, inject_Z_plus in Hleft.
    change (inject_Z 1) with 1%Q in Hleft.
    assert (Hnn : (0 <= inject_Z (Z.of_nat n) * pi)%Q).
    { apply Qmult_le_0_compat; [|lra].
      change 0%Q with (inject_Z 0). rewrite <- Zle_Qle. lia. }
    destruct Hd as [Hd|Hd]; lra.
Qed.

Lemma wait_body_unfold (fuel : nat) (exe : Execution) (timeout : Q) (w : World) :
  _wait_for_inactivation_body fuel exe timeout w =
    _wait_loop fuel exe timeout (Qmin 10 (float_div timeout 4))
      (float_add (clock w) timeout) (advance_clock (elapse (clock w)) w).
Proof. reflexivity. Qed.

Lemma wait_run (fuel : nat) (exe : Execution) (timeout : Q) (w : World) :
  _wait_for_inactivation fuel exe timeout w =
    match _wait_loop fuel exe timeout (Qmin 10 (float_div timeout 4))
            (float_add (clock w) timeout)
            (advance_clock (elapse (clock w)) w) with
    | (Raise e, w') => (Raise (to_status "_wait_for_inactivation" e), w')
    | other => other
    end.
Proof.
  unfold _wait_for_inactivation. rewrite decorator_spec, wait_body_unfold.
  reflexivity.
Qed.

Lemma loop_fuel_covers (span pi : Q) :
  (0 < pi)%Q ->
  (span <= inject_Z (Z.of_nat (Z.to_nat (Qceiling (span / pi)))) * pi)%Q.
Proof.
  intros Hpi.
  assert (Hsplit : (span == span / pi * pi)%Q) by (field; lra).
  assert (Hceil : (span / pi
                   <= inject_Z (Z.of_nat (Z.to_nat (Qceiling (span / pi)))))%Q).
  { eapply Qle_trans; [apply Qle_ceiling|]. rewrite <- Zle_Qle. lia. }
  rewrite Hsplit at 1. apply Qmult_le_compat_r; [exact Hceil|lra].
Qed.

Lemma wait_body_terminates (fuel : nat) (exe : Execution) (timeout : Q)
    (w : World) :
  honest_clock -> exact_differences ->
  (0 < Qmin 10 (float_div timeout 4) \/
   float_add (clock w) timeout <= clock w)%Q ->
  (loop_fuel (float_add (clock w) timeout - clock w)
     (Qmin 10 (float_div timeout 4)) <= fuel)%nat ->
  fst (_wait_for_inactivation_body fuel exe timeout w) <> OutOfFuel.
Proof.
  intros Hclock Hexact Hcase Hfuel. rewrite wait_body_unfold.
  pose proof Hclock as [Helapse _].
  pose proof (Helapse (clock w)) as He.
  unfold loop_fuel in Hfuel.
  destruct Hcase as [Hpi|Hpast].
  - eapply wait_loop_fuel; [exact Hclock|exact Hexact|exact Hpi| |exact Hfuel].
    pose proof (loop_fuel_covers (float_add (clock w) timeout - clock w)
                  (Qmin 10 (float_div timeout 4)) Hpi) as Hcover.
    simpl clock. lra.
  - destruct fuel as [|k]; [lia|].
    assert (Hexp : (float_add (clock w) timeout
                    <= clock (advance_clock (elapse (clock w)) w))%Q)
      by (simpl; lra).
    destruct (wait_loop_expired (S k) exe timeout
                (Qmin 10 (float_div timeout 4)) _ _
                (exact_differences_sign Hexact) Hexp) as [_ Hraise].
    rewrite (Hraise k eq_refl). discriminate.
Qed.

Lemma wait_body_terminates_unrounded (fuel : nat) (exe : Execution)
    (timeout : Q) (w : World) :
  honest_clock -> no_rounding ->
  (wait_fuel timeout <= fuel)%nat ->
  fst (_wait_for_inactivation_body fuel exe timeout w) <> OutOfFuel.
Proof.
  intros Hclock (Hadd & Hexact & Hdiv) Hfuel. rewrite wait_body_unfold.
  pose proof Hclock as [Helapse _].
  pose proof (Helapse (clock w)) as He.
  pose proof (Hadd (clock w) timeout) as Hend.
  assert (Hquot : (float_div timeout 4 == timeout / 4)%Q)
    by (apply Hdiv; discriminate).
  unfold wait_fuel in Hfuel.
  destruct (Qlt_le_dec 0 timeout) as [Hpos|Hneg].
  - assert (Hquarter : (timeout == timeout / 4 * 4)%Q) by field.
    apply (wait_loop_fuel (Z.to_nat (Z.max 4 (Qceiling (timeout / 10)))));
      [exact Hclock | exact Hexact | | | lia].
    { destruct (Q.min_spec 10 (float_div timeout 4)) as [[Hm1 Hm2]|[Hm1 Hm2]];
        rewrite Hm2; lra. }
    rewrite Z2Nat.id by lia. simpl clock.
    set (m := Z.max 4 (Qceiling (timeout / 10))).
    assert (Hm4 : (4 <= inject_Z m)%Q).
    { change 4%Q with (inject_Z 4). rewrite <- Zle_Qle. lia. }
    assert (Hmc : (timeout / 10 <= inject_Z m)%Q).
    { eapply Qle_trans; [apply Qle_ceiling|]. rewrite <- Zle_Qle. lia. }
    assert (Htenth : (timeout == timeout / 10 * 10)%Q) by field.
    destruct (Q.min_spec 10 (float_div timeout 4)) as [[Hm1 Hm2]|[Hm1 Hm2]];
      rewrite Hm2.
    + lra.
    + assert (Hprod : (0 <= (inject_Z m - 4) * (timeout / 4))%Q)
        by (apply Qmult_le_0_compat; lra).
      assert (Hprod' : (0 <= (inject_Z m - 4) * float_div timeout 4)%Q)
        by (rewrite Hquot; exact Hprod).
      lra.
  - destruct fuel as [|k]; [lia|].
    assert (Hexp : (float_add (clock w) timeout
                    <= clock (advance_clock (elapse (clock w)) w))%Q)
      by (simpl; lra).
    destruct (wait_loop_expired (S k) exe timeout
                (Qmin 10 (float_div timeout 4)) _ _
                (exact_differences_sign Hexact) Hexp) as [_ Hraise].
    rewrite (Hraise k eq_refl). discriminate.
Qed.

Lemma wait_body_already_inactive (k : nat) (exe : Execution) (timeout : Q)
    (w : World) (e : Execution) :
  difference_sign ->
  stays_inactive (exec_id exe) ->
  executions (mlmd w) !! exec_id exe = Some e ->
  is_execution_active e = false ->
  (clock w + elapse (clock w) < float_add (clock w) timeout)%Q ->
  fst (_wait_for_inactivation_body (S k) exe timeout w) = Return tt.
Proof.
  intros Hsign Hstays Hrecord Hinactive Hsoon.
  rewrite wait_body_unfold, wait_loop_step. cbv zeta.
  destruct (Qlt_le_dec 0 _) as [Hopen|Hpast].
  2:{ exfalso. apply (proj2 (Hsign _ _)) in Hsoon. simpl in Hpast. lra. }
  destruct (Hstays (clock w) (clock w + elapse (clock w))%Q (mlmd w) e
              Hrecord Hinactive) as (e1 & Hrecord1 & Hinactive1).
  match goal with |- context [advance_clock ?dt (advance_clock ?dt0 w)] =>
    destruct (Hstays (clock (advance_clock dt0 w))
                (clock (advance_clock dt0 w) + dt)%Q
                (mlmd (advance_clock dt0 w)) e1 Hrecord1 Hinactive1)
      as (e2 & Hrecord2 & Hinactive2)
  end.
  unfold store_get_executions_by_id. simpl omap. simpl in Hrecord2.
  rewrite Hrecord2. simpl. rewrite Hinactive2. reflexivity.
Qed.

Lemma saw_inactive_not_active (evs : list Event) :
  Forall saw_active_if_poll evs -> ~ Exists saw_inactive evs.
Proof.
  intros Hall Hex. apply Exists_exists in Hex as (ev & Hin & Hev).
  rewrite Forall_forall in Hall. specialize (Hall ev Hin).
  destruct ev as [| ids [|e rest] | | |]; simpl in *; try contradiction.
  congruence.
Qed.

Lemma saw_inactive_poll_not_active (poll : Event) :
  saw_inactive poll -> ~ saw_active_if_poll poll.
Proof.
  destruct poll as [| ids [|e rest] | | |]; simpl; try contradiction.
  congruence.
Qed.

Lemma saw_nothing_poll_not_active (poll : Event) :
  saw_nothing poll -> ~ saw_active_if_poll poll.
Proof.
  destruct poll as [| ids [|e rest] | | |]; simpl; try contradiction. auto.
Qed.

(** C6, as amended.  With a clock that does not run backwards and differences
    of floats that have the sign of the exact differences, whatever the store
    holds.  No sleep is longer than min(10, timeout/4) seconds, and if the
    differences are exact the wait sleeps that long between two consecutive
    polls.  It returns only after a poll has found the record inactive, all
    earlier polls having found it active.  It raises DEADLINE_EXCEEDED, every
    poll having found the record active, or UNKNOWN because a poll has found
    no record (the IndexError of [updated_executions[0]]); when it ends, it
    raises DEADLINE_EXCEEDED if and only if every poll has found the record
    active, which for a record that stays in the store is to say that no poll
    has found it inactive.  The deadline, the clock at the start plus
    [timeout_secs] as the floats add up, is tested before every poll, the
    first included: a wait whose deadline the clock has reached at the first
    test raises DEADLINE_EXCEEDED without a poll, and for a record that is
    already inactive the wait returns if the clock has not reached the
    deadline at the first test.  If the differences are exact and the interval
    is positive, [loop_fuel] evaluations of the loop condition are enough for
    the wait to end. *)
Theorem wait_for_inactivation_spec (fuel : nat) (exe : Execution)
    (timeout_secs : Q) (w : World) :
  honest_clock ->
  difference_sign ->
  let interval := Qmin 10 (float_div timeout_secs 4) in
  let end_time := float_add (clock w) timeout_secs in
  let run := _wait_for_inactivation fuel exe timeout_secs w in
  exists evs,
    trace (snd run) = trace w ++ evs /\
    Forall (sleep_within (Qmax 0 interval)) evs /\
    (exact_differences -> polling_intervals (Qmax 0 interval) evs) /\
    match fst run with
    | Return _ =>
        exists before poll,
          evs = before ++ [poll] /\ saw_inactive poll /\
          Forall saw_active_if_poll before
    | Raise e =>
        (e = StatusNotOkError DEADLINE_EXCEEDED (deadline_message timeout_secs)
         /\ Forall saw_active_if_poll evs) \/
        (e = to_status "_wait_for_inactivation" IndexError /\
         exists before poll,
           evs = before ++ [poll] /\ saw_nothing poll /\
           Forall saw_active_if_poll before)
    | OutOfFuel => Forall saw_active_if_poll evs
    end /\
    (fst run <> OutOfFuel ->
     ((exists msg, fst run = Raise (StatusNotOkError DEADLINE_EXCEEDED msg))
      <-> Forall saw_active_if_poll evs)) /\
    (keeps_record (exec_id exe) ->
     is_Some (executions (mlmd w) !! exec_id exe) ->
     (forall e, fst run = Raise e ->
        e = StatusNotOkError DEADLINE_EXCEEDED (deadline_message timeout_secs))
     /\
     (fst run <> OutOfFuel ->
      ((exists msg, fst run = Raise (StatusNotOkError DEADLINE_EXCEEDED msg))
       <-> ~ Exists saw_inactive evs))) /\
    (exact_differences ->
     (0 < interval \/ end_time <= clock w)%Q ->
     (loop_fuel (end_time - clock w) interval <= fuel)%nat ->
     fst run <> OutOfFuel) /\
    ((0 < fuel)%nat ->
     (end_time <= clock w + elapse (clock w))%Q ->
     fst run =
       Raise (StatusNotOkError DEADLINE_EXCEEDED (deadline_message timeout_secs))
     /\ evs = []) /\
    (forall e,
       stays_inactive (exec_id exe) ->
       executions (mlmd w) !! exec_id exe = Some e ->
       is_execution_active e = false ->
       (clock w + elapse (clock w) < end_time)%Q ->
       (0 < fuel)%nat ->
       fst run = Return tt).
Proof.
  intros Hclock Hsign interval end_time run.
  set (w1 := advance_clock (elapse (clock w)) w).
  pose proof (wait_body_unfold fuel exe timeout_secs w) as Hbody.
  fold interval w1 end_time in Hbody.
  destruct (wait_loop_outcome fuel exe timeout_secs interval end_time w1)
    as (evs & Htrace & Hout).
  change (trace w1) with (trace w) in Htrace.
  assert (Hrun : run =
            match _wait_loop fuel exe timeout_secs interval end_time w1 with
            | (Raise e, w') =>
                (Raise (to_status "_wait_for_inactivation" e), w')
            | other => other
            end)
    by apply wait_run.
  exists evs.
  assert (Hbounded : Forall (sleep_within (Qmax 0 interval)) evs).
  { destruct (wait_loop_bounded fuel exe timeout_secs interval end_time w1)
      as (evs' & Htrace' & Hsleeps).
    change (trace w1) with (trace w) in Htrace'.
    rewrite Htrace in Htrace'. apply app_inv_head in Htrace'. subst evs'.
    exact Hsleeps. }
  assert (Hpoll : exact_differences ->
                  polling_intervals (Qmax 0 interval) evs).
  { intros Hexact.
    destruct (wait_loop_sleeps fuel exe timeout_secs interval end_time w1
                Hclock Hexact) as (evs' & Htrace' & Hsleeps).
    change (trace w1) with (trace w) in Htrace'.
    rewrite Htrace in Htrace'. apply app_inv_head in Htrace'. subst evs'.
    exact Hsleeps. }
  assert (Hcases :
    match fst run with
    | Return _ =>
        exists before poll,
          evs = before ++ [poll] /\ saw_inactive poll /\
          Forall saw_active_if_poll before
    | Raise e =>
        (e = StatusNotOkError DEADLINE_EXCEEDED (deadline_message timeout_secs)
         /\ Forall saw_active_if_poll evs) \/
        (e = to_status "_wait_for_inactivation" IndexError /\
         exists before poll,
           evs = before ++ [poll] /\ saw_nothing poll /\
           Forall saw_active_if_poll before)
    | OutOfFuel => Forall saw_active_if_poll evs
    end).
  { rewrite Hrun.
    destruct (_wait_loop fuel exe timeout_secs interval end_time w1)
      as [[[]|e|] w']; simpl in *.
    - exact Hout.
    - destruct Hout as [[-> Hall]|[-> Hlast]].
      + left. split; [reflexivity|exact Hall].
      + right. split; [reflexivity|exact Hlast].
    - exact Hout. }
  assert (Hiff : fst run <> OutOfFuel ->
    ((exists msg, fst run = Raise (StatusNotOkError DEADLINE_EXCEEDED msg))
     <-> Forall saw_active_if_poll evs)).
  { intros Hdone. destruct (fst run) as [[]|e|]; [| |contradiction].
    - destruct Hcases as (before & poll & -> & Hsaw & _). split.
      + intros [msg Hmsg]. discriminate.
      + intros Hall. exfalso. apply Forall_app in Hall as [_ Hlast].
        inversion Hlast; subst.
        eapply saw_inactive_poll_not_active; eassumption.
    - destruct Hcases as [[-> Hall]|(-> & before & poll & -> & Hsaw & _)].
      + split; [intros _; exact Hall|intros _; eexists; reflexivity].
      + split.
        * intros [msg Hmsg]. discriminate.
        * intros Hall. exfalso. apply Forall_app in Hall as [_ Hlast].
          inversion Hlast; subst.
          eapply saw_nothing_poll_not_active; eassumption. }
  split.
  { rewrite Hrun, <- Htrace.
    destruct (_wait_loop fuel exe timeout_secs interval end_time w1)
      as [[[]|e|] w']; reflexivity. }
  split; [exact Hbounded|]. split; [exact Hpoll|]. split; [exact Hcases|].
  split; [exact Hiff|]. split; [|split; [|split]].
  - intros Hkeep Hhere.
    assert (Hhere1 : is_Some (executions (mlmd w1) !! exec_id exe))
      by (apply Hkeep; exact Hhere).
    pose proof (wait_loop_finds_record fuel exe timeout_secs interval end_time
                  w1 Hkeep Hhere1) as Hfound.
    assert (Hdeadline : forall e, fst run = Raise e ->
              e = StatusNotOkError DEADLINE_EXCEEDED
                    (deadline_message timeout_secs)).
    { intros e. rewrite Hrun.
      destruct (_wait_loop fuel exe timeout_secs interval end_time w1)
        as [[[]|e'|] w']; simpl in *; try discriminate.
      intros He. injection He as <-.
      destruct Hout as [[-> _]|[-> _]]; [reflexivity|contradiction]. }
    split; [exact Hdeadline|].
    intros Hdone. destruct (fst run) as [[]|e|] eqn:Hfst; [| |contradiction].
    + destruct Hcases as (before & poll & -> & Hsaw & _). split.
      * intros [msg Hmsg]. discriminate.
      * intros Hno. exfalso. apply Hno. apply Exists_app. right.
        constructor. exact Hsaw.
    + rewrite (Hdeadline e eq_refl) in *.
      destruct Hcases as [[_ Hall]|[Hwrong _]]; [|discriminate].
      split.
      * intros _. apply saw_inactive_not_active. exact Hall.
      * intros _. eexists. reflexivity.
  - intros Hexact Hcase Hfuel.
    pose proof (wait_body_terminates fuel exe timeout_secs w Hclock Hexact
                  Hcase Hfuel) as Hterm.
    rewrite Hbody in Hterm. rewrite Hrun.
    destruct (_wait_loop fuel exe timeout_secs interval end_time w1)
      as [[[]|e|] w']; simpl in *; try discriminate. contradiction.
  - intros Hfuel Hpast. destruct fuel as [|k]; [lia|].
    destruct (wait_loop_expired (S k) exe timeout_secs interval end_time w1
                Hsign Hpast) as [Hquiet Hraise].
    specialize (Hraise k eq_refl).
    change (trace w1) with (trace w) in Hquiet.
    rewrite Hquiet in Htrace.
    rewrite <- (app_nil_r (trace w)) in Htrace at 1.
    apply app_inv_head in Htrace.
    split; [|symmetry; exact Htrace].
    rewrite Hrun.
    destruct (_wait_loop (S k) exe timeout_secs interval end_time w1)
      as [r w']. simpl in Hraise. subst r. reflexivity.
  - intros e Hstays Hrecord Hinactive Hsoon Hfuel.
    destruct fuel as [|k]; [lia|].
    pose proof (wait_body_already_inactive k exe timeout_secs w e Hsign Hstays
                  Hrecord Hinactive Hsoon) as Hret.
    rewrite Hbody in Hret. rewrite Hrun.
    destruct (_wait_loop (S k) exe timeout_secs interval end_time w1)
      as [r w'].
    simpl in Hret. subst r. reflexivity.
Qed.

End properties.

(** ** The theorems at concrete inputs *)

Import Reference.

Lemma stop_initiated_pipeline_sweep_witness :
  _get_pipeline_states stop_requested =
    (Return [state1 NEW [STOP_INITIATED]], stop_requested) /\
  PipelineState_is_stop_initiated (state1 NEW [STOP_INITIATED]) = true /\
  generate_tasks stop_requested =
    _process_stop_initiated_pipeline (state1 NEW [STOP_INITIATED])
      stop_requested.
Proof.
  assert (Hscan : _get_pipeline_states stop_requested =
                    (Return [state1 NEW [STOP_INITIATED]], stop_requested))
    by (vm_compute; reflexivity).
  assert (Hstop : PipelineState_is_stop_initiated
                    (state1 NEW [STOP_INITIATED]) = true)
    by reflexivity.
  split; [exact Hscan|]. split; [exact Hstop|].
  exact (proj2 (proj2 (proj2
           (stop_initiated_pipeline_sweep (state1 NEW [STOP_INITIATED])
              stop_requested))) Hscan Hstop).
Defined.

(** Scenario 5 of section 8: the tick cancels an idle stop-initiated
    pipeline. *)
Example tick_cancels_idle_stop_initiated_pipeline :
  let after := generate_tasks stop_requested in
  fst after = Return tt /\
  task_queue (snd after) = [] /\
  last_known_state <$> executions (mlmd (snd after)) !! 1 = Some CANCELED.
Proof. vm_compute. repeat split. Qed.

(** Scenario 6 of section 8: the tick cancels an in-flight node after a
    restart (the queue is empty). *)
Example tick_cancels_in_flight_node_after_restart :
  let after := generate_tasks node_stop_requested in
  task_queue node_stop_requested = [] /\
  fst after = Return tt /\
  task_queue (snd after) = [ExecNodeTask trainer_uid true].
Proof. vm_compute. repeat split. Qed.

(** With the ExecNodeTask of Trainer in the queue, a CancelNodeTask follows. *)
Example cancel_task_for_queued_node :
  let w := set_task_queue [ExecNodeTask trainer_uid false] node_stop_requested in
  let after := _maybe_enqueue_cancellation_task pipeline1 trainer w in
  fst after = Return true /\
  task_queue (snd after) =
    [ExecNodeTask trainer_uid false; CancelNodeTask trainer_uid].
Proof. vm_compute. repeat split. Qed.

(** A store that hands the tick a pipeline execution which is COMPLETE and not
    stop-initiated. *)
Lemma tick_classification_witness :
  let lib := scripted_pipeline_state_lib (fun _ => inr finished) in
  _get_pipeline_states (pstate := lib) one_context =
    (Return [finished], one_context) /\
  generate_tasks (pstate := lib) one_context =
    (Raise (StatusNotOkError INTERNAL (neither_message finished)), one_context).
Proof.
  intros lib.
  assert (Hscan : _get_pipeline_states (pstate := lib) one_context =
                    (Return [finished], one_context))
    by (vm_compute; reflexivity).
  split; [exact Hscan|].
  exact (proj2 (proj2 (proj2
           (tick_classification (pstate := lib) one_context [finished] Hscan)))).
Defined.

(** pipeline1 and pipeline2 right after their start: the tick reaches pipeline2
    once it has processed pipeline1. *)
Lemma new_pipeline_is_set_running_first_witness :
  let ps1 := state1 NEW [] in
  let ps2 := state_of pipeline2 2 NEW in
  let w0 := snd (_process_active_pipelines [ps1] started12) in
  let running := with_last_known_state RUNNING (execution ps2) in
  let w1 := snd (put_executions [running] w0) in
  _get_pipeline_states started12 = (Return [ps1; ps2], started12) /\
  List.find neither [ps1; ps2] = None /\
  List.filter only_active [ps1; ps2] = [ps1] ++ ps2 :: [] /\
  (_process_stop_initiated_pipelines
     (List.filter PipelineState_is_stop_initiated [ps1; ps2]) ;;;
   _process_active_pipelines [ps1]) started12 = (Return tt, w0) /\
  last_known_state (execution ps2) = NEW /\
  _process_active_pipeline ps2 w0 = _cancel_generate_enqueue ps2 w1 /\
  executions (mlmd w1) !! 2 = Some running.
Proof.
  intros ps1 ps2 w0 running w1.
  assert (Hscan : _get_pipeline_states started12
                  = (Return [ps1; ps2], started12))
    by (vm_compute; reflexivity).
  assert (Hvalid : List.find neither [ps1; ps2] = None) by reflexivity.
  assert (Hact : List.filter only_active [ps1; ps2] = [ps1] ++ ps2 :: [])
    by reflexivity.
  assert (Hearlier :
    (_process_stop_initiated_pipelines
       (List.filter PipelineState_is_stop_initiated [ps1; ps2]) ;;;
     _process_active_pipelines [ps1]) started12 = (Return tt, w0))
    by (vm_compute; reflexivity).
  assert (Hnew : last_known_state (execution ps2) = NEW) by reflexivity.
  split; [exact Hscan|]. split; [exact Hvalid|]. split; [exact Hact|].
  split; [exact Hearlier|]. split; [exact Hnew|].
  destruct (new_pipeline_is_set_running_first started12 [ps1; ps2] [ps1] []
              ps2 Hscan Hvalid Hact) as (_ & Hreached & _).
  destruct (Hreached w0 Hearlier) as (_ & Hnewcase & _).
  destruct (Hnewcase Hnew) as (Hrun & Hstore & _).
  split; [exact Hrun | exact Hstore].
Defined.

(** pipeline0, whose execution mode is unspecified, then pipeline1, both NEW
    and active: the tick writes pipeline0 as RUNNING, fails on its execution
    mode and ends; pipeline1 is still NEW in the store and nothing was written
    or generated for it. *)
Lemma later_pipeline_stays_new :
  let ps1 := state_of pipeline1 2 NEW in
  let after := generate_tasks started01 in
  _get_pipeline_states started01 = (Return [state0; ps1], started01) /\
  only_active ps1 = true /\
  last_known_state (execution ps1) = NEW /\
  fst after =
    Raise (StatusNotOkError FAILED_PRECONDITION
             (unsupported_mode_message (OtherMode 0))) /\
  executions (mlmd (snd after)) !! 2 = Some (execution ps1) /\
  trace (snd after) =
    [EvPutExecutions [with_last_known_state RUNNING (execution state0)]].
Proof. intros ps1 after. vm_compute. repeat split. Qed.

(** Stopping Trainer while one of its executions is RUNNING. *)
Lemma stop_node_cases_witness :
  PipelineState_load (pipeline_uid_of trainer_uid) (mlmd seeded) =
    inr (state1 NEW []) /\
  lock_count node_stop_committed = lock_count seeded /\
  stop_node (env := quiet_environment) 7 trainer_uid 60 seeded =
    _wait_for_inactivation (env := quiet_environment) 7 trainer_execution 60
      node_stop_committed.
Proof.
  assert (Hload : PipelineState_load (pipeline_uid_of trainer_uid) (mlmd seeded)
                  = inr (state1 NEW []))
    by (vm_compute; reflexivity).
  split; [exact Hload|].
  assert (Hcases :
    lock_count node_stop_committed = lock_count seeded /\
    clock node_stop_committed = clock seeded /\
    trace node_stop_committed = trace seeded /\
    stop_node (env := quiet_environment) 7 trainer_uid 60 seeded =
      _wait_for_inactivation (env := quiet_environment) 7 trainer_execution 60
        node_stop_committed)
    by exact (stop_node_cases (env := quiet_environment) 7 trainer_uid 60 seeded
                (state1 NEW []) Hload).
  destruct Hcases as (Hlock & _ & _ & Hrun).
  split; [exact Hlock | exact Hrun].
Defined.

(** The environments of the examples meet the assumptions. *)
Lemma completing_environment_honest (i : Z) (t0 : Q) :
  honest_clock (env := completing_environment i t0).
Proof. split; intros; apply Qle_refl. Defined.

Lemma completing_environment_keeps (i : Z) (t0 : Q) (j : Z) :
  keeps_record (env := completing_environment i t0) j.
Proof.
  intros t t' st Hhere. simpl. destruct (Qle_bool t0 t'); [|exact Hhere].
  simpl. rewrite lookup_alter. destruct Hhere as [e He].
  case_decide; [subst; rewrite He|rewrite He]; eexists; reflexivity.
Defined.

(** Binary64 meets the assumption on the sign of a difference. *)
Lemma round_half_even_positive (x : Q) :
  (1 <= x)%Q -> 1 <= round_half_even x.
Proof.
  intros Hx. unfold round_half_even.
  assert (Hfloor : 1 <= Qfloor x).
  { change 1 with (Qfloor (inject_Z 1)) at 1. apply Qfloor_resp_le. exact Hx. }
  destruct (_ ?= _)%Q; [destruct (Z.even _)| |]; lia.
Qed.

Lemma ilog2_below (q : Q) : (0 < q)%Q -> (2 ^ ilog2 q <= q)%Q.
Proof.
  intros Hq. unfold ilog2.
  set (a := Z.log2 (Qnum q)). set (b := Z.log2 (Z.pos (Qden q))).
  destruct (Qle_bool (2 ^ (a - b)) q) eqn:Htest.
  { apply Qle_bool_iff. exact Htest. }
  clear Htest. destruct q as [n d]. cbn [Qnum Qden] in a, b.
  assert (Hn : 0 < n) by (unfold Qlt in Hq; simpl in Hq; lia).
  destruct (Z.log2_spec n Hn) as [Hlow _]. fold a in Hlow.
  destruct (Z.log2_spec (Z.pos d) (Pos2Z.is_pos d)) as [_ Hhigh].
  fold b in Hhigh.
  assert (Ha : 0 <= a) by apply Z.log2_nonneg.
  assert (Hb : 0 <= b) by apply Z.log2_nonneg.
  replace (a - b - 1) with (a - Z.succ b) by lia.
  rewrite Qpower_minus by discriminate.
  rewrite <- !(Zpower_Qpower 2) by lia.
  assert (Hpow : 0 < 2 ^ Z.succ b) by (apply Z.pow_pos_nonneg; lia).
  apply Qle_shift_div_r.
  { change 0%Q with (inject_Z 0). rewrite <- Zlt_Qlt. exact Hpow. }
  rewrite (Qmake_Qdiv n d).
  unfold Qdiv. rewrite <- Qmult_assoc, (Qmult_comm (/ _)), Qmult_assoc.
  apply Qle_shift_div_l.
  { change 0%Q with (inject_Z 0). rewrite <- Zlt_Qlt. lia. }
  rewrite <- !inject_Z_mult, <- Zle_Qle. nia.
Qed.

Lemma round_positive_sign (q : Q) : (0 < q)%Q -> (0 < round_positive q)%Q.
Proof.
  intros Hq. unfold round_positive. rewrite Qred_correct.
  set (e := ilog2 q - 52).
  assert (Hpow : (0 < 2 ^ e)%Q) by (apply Qpower_0_lt; reflexivity).
  assert (Hbelow : (2 ^ e <= q)%Q).
  { eapply Qle_trans; [|apply ilog2_below; exact Hq].
    apply Qpower_le_compat_l; [unfold e; lia|discriminate]. }
  assert (Hm : 1 <= round_half_even (q / 2 ^ e)).
  { apply round_half_even_positive. apply Qle_shift_div_l; [exact Hpow|].
    rewrite Qmult_1_l. exact Hbelow. }
  apply Qmult_lt_0_compat; [|exact Hpow].
  change 0%Q with (inject_Z 0). rewrite <- Zlt_Qlt. lia.
Qed.

Lemma binary64_sign (q : Q) : (0 < binary64 q <-> 0 < q)%Q.
Proof.
  destruct q as [[|n|n] d]; unfold binary64; simpl Qnum.
  - split; intros H; inversion H.
  - split; intros _; [reflexivity|].
    apply round_positive_sign. reflexivity.
  - assert (Hr : (0 < round_positive (- (Z.neg n # d)))%Q)
      by (apply round_positive_sign; reflexivity).
    split; intros H; [lra|inversion H].
Qed.

Lemma binary64_difference_sign : difference_sign.
Proof.
  intros a b. unfold float_sub, binary64_arithmetic.
  rewrite binary64_sign. split; intros H; lra.
Qed.

(** Waiting up to a minute for the execution of Trainer, which another thread
    completes after fifteen seconds; the floats are binary64. *)
Lemma wait_for_inactivation_spec_witness :
  let env := completing_environment 2 15 in
  let run := _wait_for_inactivation (env := env) 7 trainer_execution 60 seeded in
  honest_clock (env := env) /\
  difference_sign /\
  keeps_record (env := env) (exec_id trainer_execution) /\
  is_Some (executions (mlmd seeded) !! exec_id trainer_execution) /\
  fst run = Return tt /\
  exists evs,
    trace (snd run) = trace seeded ++ evs /\
    Forall (sleep_within (Qmax 0 (Qmin 10 (float_div 60 4)))) evs /\
    ((exists msg, fst run = Raise (StatusNotOkError DEADLINE_EXCEEDED msg))
     <-> Forall saw_active_if_poll evs) /\
    ((exists msg, fst run = Raise (StatusNotOkError DEADLINE_EXCEEDED msg))
     <-> ~ Exists saw_inactive evs).
Proof.
  intros env run.
  assert (Hclock : honest_clock (env := env))
    by apply completing_environment_honest.
  assert (Hsign : difference_sign) by apply binary64_difference_sign.
  assert (Hkeep : keeps_record (env := env) (exec_id trainer_execution))
    by apply completing_environment_keeps.
  assert (Hhere : is_Some (executions (mlmd seeded)
                           !! exec_id trainer_execution))
    by (exists trainer_execution; vm_compute; reflexivity).
  assert (Hret : fst run = Return tt) by (vm_compute; reflexivity).
  split; [exact Hclock|]. split; [exact Hsign|]. split; [exact Hkeep|].
  split; [exact Hhere|]. split; [exact Hret|].
  destruct (wait_for_inactivation_spec (env := env) 7 trainer_execution 60
              seeded Hclock Hsign)
    as (evs & Htrace & Hsleeps & _ & _ & Hiff & Hkept & _).
  assert (Hdone : fst run <> OutOfFuel) by (rewrite Hret; discriminate).
  exists evs. split; [exact Htrace|]. split; [exact Hsleeps|].
  split; [exact (Hiff Hdone)|].
  exact (proj2 (Hkept Hkeep Hhere) Hdone).
Defined.

(** An execution that is already COMPLETE, a positive timeout of one
    nanosecond, and a clock that moves by a microsecond between two readings:
    the deadline has passed when the loop first tests it. *)
Lemma tiny_timeout_misses_inactive_execution :
  let env := microsecond_environment in
  let done := with_last_known_state COMPLETE trainer_execution in
  let w := set_mlmd (store_put_executions [done] (mlmd seeded)) seeded in
  let timeout_secs := (1 # 1000000000)%Q in
  executions (mlmd w) !! exec_id done = Some done /\
  is_execution_active done = false /\
  (0 < timeout_secs)%Q /\
  honest_clock (env := env) /\
  stays_inactive (env := env) (exec_id done) /\
  (forall fuel,
     fst (_wait_for_inactivation (env := env) fuel done timeout_secs w)
     <> Return tt) /\
  fst (_wait_for_inactivation (env := env) (wait_fuel timeout_secs) done
         timeout_secs w) =
    Raise (StatusNotOkError DEADLINE_EXCEEDED (deadline_message timeout_secs)).
Proof.
  intros env done w timeout_secs.
  split; [vm_compute; reflexivity|]. split; [reflexivity|].
  split; [reflexivity|]. split; [split; intros; discriminate|].
  split; [intros t t' st e He Hinactive; exists e; split; assumption|].
  split; [|vm_compute; reflexivity].
  intros [|k]; vm_compute; discriminate.
Qed.

(** The clock reads 1.7e9 seconds, as it does in 2023, and moves only in
    sleeps; the timeout is a tenth of a microsecond, less than half the
    distance from 1.7e9 to the next float.  The sum is the start time itself:
    the wait fails at once, without a poll, though the execution is already
    COMPLETE. *)
Example rounding_absorbs_small_timeout :
  let done := with_last_known_state COMPLETE trainer_execution in
  let w :=
    set_clock 1700000000
      (set_mlmd (store_put_executions [done] (mlmd seeded)) seeded) in
  let timeout_secs := (1 # 10000000)%Q in
  let run :=
    _wait_for_inactivation (env := quiet_environment) 5 done timeout_secs w in
  executions (mlmd w) !! exec_id done = Some done /\
  is_execution_active done = false /\
  (0 < timeout_secs)%Q /\
  float_add (clock w) timeout_secs = clock w /\
  fst run =
    Raise (StatusNotOkError DEADLINE_EXCEEDED (deadline_message timeout_secs)) /\
  trace (snd run) = trace w.
Proof. vm_compute. repeat split. Qed.

(** Waiting for an execution that the store does not hold: the first poll
    finds nothing, and the IndexError leaves the wait as UNKNOWN. *)
Example wait_for_missing_record_raises_unknown :
  let ghost :=
    {| exec_id := 7; last_known_state := RUNNING; custom_properties := ∅ |} in
  let run :=
    _wait_for_inactivation (env := quiet_environment) 7 ghost 60 seeded in
  executions (mlmd seeded) !! 7 = None /\
  fst run =
    Raise (StatusNotOkError UNKNOWN
             "`_wait_for_inactivation` error: list index out of range") /\
  trace (snd run) = trace seeded ++ [EvGetExecutionsById [7] []].
Proof. vm_compute. repeat split. Qed.

(** An old context, then a context whose pipeline state cannot be loaded. *)
Lemma scan_skips_stale_aborts_otherwise_witness :
  let lib := scripted_pipeline_state_lib stale_then_broken in
  stale_or_loaded (pstate := lib) (mlmd two_contexts) context9 /\
  generate_tasks (pstate := lib) two_contexts =
    (Raise (StatusNotOkError FAILED_PRECONDITION "Corrupt pipeline IR."),
     two_contexts).
Proof.
  intros lib.
  assert (Hstale : stale_or_loaded (pstate := lib) (mlmd two_contexts) context9)
    by exact I.
  split; [exact Hstale|].
  refine (proj2 (proj2 (scan_skips_stale_aborts_otherwise (pstate := lib)
                          two_contexts))
            [context9] context1 [] FAILED_PRECONDITION "Corrupt pipeline IR."
            eq_refl _ eq_refl _).
  - constructor; [exact Hstale|constructor].
  - discriminate.
Defined.

(** A tick over a pipeline whose execution mode is unspecified. *)
Lemma generator_follows_execution_mode_witness :
  execution_mode pipeline0 = OtherMode 0 /\
  _get_pipeline_states started0 = (Return [state0], started0) /\
  only_active state0 = true /\
  fst (generate_tasks started0) =
    Raise (StatusNotOkError FAILED_PRECONDITION
             (unsupported_mode_message (OtherMode 0))).
Proof.
  assert (Hscan : _get_pipeline_states started0 = (Return [state0], started0))
    by (vm_compute; reflexivity).
  assert (Hactive : only_active state0 = true) by reflexivity.
  split; [reflexivity|]. split; [exact Hscan|]. split; [exact Hactive|].
  exact (proj2 (proj2 (generator_follows_execution_mode state0 started0))
           0 started0 eq_refl Hscan Hactive).
Defined.

(** Starting pipeline1 a second time. *)
Lemma public_operations_raise_status_errors_witness :
  let already :=
    StatusNotOkError ALREADY_EXISTS
      "Pipeline with uid pipeline1 already active." in
  PipelineState_new pipeline1 (mlmd started) = (inl already, mlmd started) /\
  fst (initiate_pipeline_start pipeline1 started) = Raise already.
Proof.
  intros already.
  assert (Hnew : PipelineState_new pipeline1 (mlmd started)
                 = (inl already, mlmd started))
    by (vm_compute; reflexivity).
  split; [exact Hnew|].
  exact (proj1 (proj2 (proj2 (proj2 (proj2 (proj2 (proj2 (proj2
           (public_operations_raise_status_errors
              (env := quiet_environment)))))))))
           pipeline1 started already (mlmd started) Hnew).
Defined.

(** The tick over pipeline1 right after its start. *)
Lemma active_assertion_always_holds_witness :
  _get_pipeline_states started = (Return [state1 NEW []], started) /\
  _classify [state1 NEW []] [] [] started =
    (Return ([state1 NEW []], []), started) /\
  forall w0, _assert_active (execution (state1 NEW [])) w0 = (Return tt, w0).
Proof.
  assert (Hscan : _get_pipeline_states started
                  = (Return [state1 NEW []], started))
    by (vm_compute; reflexivity).
  assert (Hclass : _classify [state1 NEW []] [] [] started
                   = (Return ([state1 NEW []], []), started))
    by reflexivity.
  split; [exact Hscan|]. split; [exact Hclass|].
  exact (proj2 (proj1 (active_assertion_always_holds started [state1 NEW []]
                         Hscan [state1 NEW []] [] started Hclass)
                  (state1 NEW []) (or_introl eq_refl))).
Defined.
